(** * The chat route of the portfolio assistant

    A shallow embedding of [src/app/api/chat/route.ts] and of its
    near-duplicate [src/unnamed/part_000]: the two [POST] handlers, the
    [OPTIONS] handler, and the pieces of JavaScript semantics they rest on
    (strings as sequences of UTF-16 code units, [trim], [slice], template
    literals, optional chaining, property access on parsed JSON).

    External collaborators (the request body, [process.env], the row store,
    the completion service and the engine's exception texts) are gathered in
    a [world] record; a handler is a function of the world that yields the
    response together with the log of outbound calls it issued. *)

From Stdlib Require Import ZArith NArith List String Ascii Decimal DecimalString QArith.
From stdpp Require Import base gmap sets list sorting.

Set Warnings "-register-all,-clear-no-such-hyp".
Open Scope N_scope.

(** ** JavaScript strings *)

(** A JavaScript string is the sequence of its UTF-16 code units. *)
Abbreviation jsstring := (list N).

(** The code units of an ASCII literal of the source. *)
Definition lit (s : string) : jsstring :=
  map N_of_ascii (list_ascii_of_string s).

Module Utf8.

(** Code units of a text given by its UTF-8 bytes. *)
Fixpoint decode (fuel : nat) (bs : list N) : jsstring :=
  match fuel with
  | O => []
  | S fuel' =>
    match bs with
    | [] => []
    | b :: rest =>
      if b <? 128 then b :: decode fuel' rest
      else if (b <? 224) then
        match rest with
        | b2 :: rest' => ((b - 192) * 64 + (b2 - 128)) :: decode fuel' rest'
        | _ => b :: decode fuel' rest
        end
      else if (b <? 240) then
        match rest with
        | b2 :: b3 :: rest' =>
          ((b - 224) * 4096 + (b2 - 128) * 64 + (b3 - 128)) :: decode fuel' rest'
        | _ => b :: decode fuel' rest
        end
      else
        match rest with
        | b2 :: b3 :: b4 :: rest' =>
          let cp := (b - 240) * 262144 + (b2 - 128) * 4096 + (b3 - 128) * 64 + (b4 - 128) in
          let v := cp - 65536 in
          (55296 + v / 1024) :: (56320 + v mod 1024) :: decode fuel' rest'
        | _ => b :: decode fuel' rest
        end
    end
  end.

End Utf8.

(** [String.prototype.slice(0, n)]: the first [n] code units. *)
Definition slice0 (n : nat) (s : jsstring) : jsstring := take n s.

(** WhiteSpace and LineTerminator code units, the ones [trim] strips. *)
Definition is_ws (c : N) : bool :=
  ((9 <=? c) && (c <=? 13)) || (c =? 32) || (c =? 160) || (c =? 5760)
  || ((8192 <=? c) && (c <=? 8202)) || (c =? 8232) || (c =? 8233)
  || (c =? 8239) || (c =? 8287) || (c =? 12288) || (c =? 65279).

Fixpoint trimStart (s : jsstring) : jsstring :=
  match s with
  | c :: rest => if is_ws c then trimStart rest else s
  | [] => []
  end.

Definition trimEnd (s : jsstring) : jsstring := rev (trimStart (rev s)).

Definition trim (s : jsstring) : jsstring := trimEnd (trimStart s).

(** [Array.prototype.join] on an array of strings. *)
Fixpoint join (sep : jsstring) (parts : list jsstring) : jsstring :=
  match parts with
  | [] => []
  | [p] => p
  | p :: rest => p ++ sep ++ join sep rest
  end.

(** The line feed. *)
Definition nl : jsstring := [10].

(** The code units of a long text of the source that is not ASCII
    throughout (the system prompts), written here in UTF-8 with its double
    quotes as backticks: a template literal holds no bare backtick. *)
Definition text (s : string) : jsstring :=
  let bs := lit s in
  map (fun c => if c =? 96 then 34 else c) (Utf8.decode (length bs) bs).

(** Decimal rendering of an array length or index. *)
Definition nat_to_string (n : nat) : jsstring :=
  lit (NilEmpty.string_of_uint (Nat.to_uint n)).

(** Truthiness of a string: non-empty. *)
Definition truthy (s : jsstring) : bool :=
  match s with [] => false | _ => true end.

(** ** Knowledge rows *)

(** A row of [portfolio_knowledge] as selected by both reads: five text
    columns, each a string or [null] ([None]). *)
Record row := Row {
  project : option jsstring;
  type : option jsstring;
  title : option jsstring;
  content : option jsstring;
  tags : option jsstring;
}.

(** [`${v}`] for a column value: [null] is rendered as the text null. *)
Definition template (v : option jsstring) : jsstring :=
  match v with Some s => s | None => lit "null" end.

(** [v ?? ""] *)
Definition or_empty (v : option jsstring) : jsstring :=
  match v with Some s => s | None => [] end.

(** ** Parsed JSON and the values read from it *)

(** A value produced by [JSON.parse]. A number is carried as its canonical
    rendering ([Number::toString]): the handlers never compute with a
    number of a body, they only test its type and interpolate it. An
    object keeps its members in text order; on a repeated key the last
    member is the property. A value that may be [undefined] is an
    [option json]. *)
Inductive json :=
| JNull
| JBool (b : bool)
| JNum (repr : jsstring)
| JStr (s : jsstring)
| JArr (items : list json)
| JObj (members : list (jsstring * json)).

Fixpoint member (k : jsstring) (ms : list (jsstring * json)) : option json :=
  match ms with
  | [] => None
  | (k', v) :: rest =>
    match member k rest with
    | Some v' => Some v'
    | None => if decide (k' = k) then Some v else None
    end
  end.

(** [v.k] for a non-null [v] and a name [k] that no prototype defines
    (message, conversationHistory, role, content, choices). *)
Definition get (v : json) (k : jsstring) : option json :=
  match v with
  | JObj ms => member k ms
  | _ => None
  end.

(** [v[0]] for a non-null [v]. *)
Definition get0 (v : json) : option json :=
  match v with
  | JArr (x :: _) => Some x
  | JStr (c :: _) => Some (JStr [c])
  | JObj ms => member (lit "0") ms
  | _ => None
  end.

(** [o?.k] and [o?.[0]]: [undefined] and [null] short-circuit. *)
Definition opt_get (o : option json) (k : jsstring) : option json :=
  match o with
  | None | Some JNull => None
  | Some v => get v k
  end.

Definition opt_get0 (o : option json) : option json :=
  match o with
  | None | Some JNull => None
  | Some v => get0 v
  end.

(** The places where the engine raises a [TypeError] in these handlers. *)
Inductive type_error :=
| DestructureNull          (* const { .. } = null *)
| ReadOfNull               (* m.role with m null *)
| NotAFunction (method : jsstring)   (* x.slice(..) or x.map(..) on a value without it *)
| NoPrimitive.             (* an object whose own toString is not callable *)

(** [ToString] of a parsed value, as a template literal applies it. *)
Fixpoint to_string (v : json) : type_error + jsstring :=
  match v with
  | JNull => inr (lit "null")
  | JBool true => inr (lit "true")
  | JBool false => inr (lit "false")
  | JNum repr => inr repr
  | JStr s => inr s
  | JArr items =>
    (* Array.prototype.join(","): null elements render as empty *)
    (fix elems (xs : list json) : type_error + jsstring :=
       match xs with
       | [] => inr []
       | x :: rest =>
         match (match x with JNull => inr [] | _ => to_string x end) with
         | inl e => inl e
         | inr s =>
           match rest with
           | [] => inr s
           | _ => match elems rest with
                  | inl e => inl e
                  | inr t => inr (s ++ lit "," ++ t)
                  end
           end
         end
       end) items
  | JObj ms =>
    match member (lit "toString") ms with
    | Some _ => inl NoPrimitive
    | None => inr (lit "[object Object]")
    end
  end.

(** [`${v}`] for a value that may be [undefined]. *)
Definition interpolate (o : option json) : type_error + jsstring :=
  match o with
  | None => inr (lit "undefined")
  | Some v => to_string v
  end.


(** ** Collaborators *)

(** An [Error] object as the top-level catch reads it. *)
Record error := Error { message : jsstring }.

(** The outcome of awaiting a promise. *)
Inductive settled (A : Type) :=
| Fulfilled (a : A)
| Rejected (e : error).
Arguments Fulfilled {A} a.
Arguments Rejected {A} e.

(** A read of the row store, as the query builder describes it. *)
Inductive row_filter :=
| FilterIn (column : jsstring) (values : list jsstring)
| FilterOr (filters : jsstring).

Record query := Query {
  q_from : jsstring;
  q_select : jsstring;
  q_filter : row_filter;
  q_limit : nat;
}.

(** What a read resolves to: [{ data, error }], with [error] either
    [null] or an object whose [message] is kept here. *)
Record read_result := ReadResult {
  data : option (list row);
  read_error : option jsstring;
}.

Record prompt_message := PromptMessage {
  role : jsstring;
  msg_content : jsstring;
}.

(** The request sent to the completion service. *)
Record completion_request := CompletionRequest {
  c_url : jsstring;
  c_method : jsstring;
  c_content_type : jsstring;
  c_authorization : jsstring;
  c_model : jsstring;
  c_messages : list prompt_message;
  c_temperature : Q;
  c_max_tokens : nat;
}.

(** What [fetch] resolves to: the [ok] flag, the body as [resp.text()]
    gives it and as [resp.json()] gives it (rejected when the body is not
    JSON). *)
Record fetch_response := FetchResponse {
  ok : bool;
  resp_text : jsstring;
  resp_json : settled json;
}.

(** An outbound call of a handler. *)
Inductive call :=
| StoreRead (url key : jsstring) (q : query)
| CompletionCall (r : completion_request).

(** Everything a handler run depends on besides its own code. *)
Record world := World {
  req_json : settled json;                 (* await req.json() *)
  NEXT_PUBLIC_SUPABASE_URL : option jsstring;
  NEXT_PUBLIC_SUPABASE_ANON_KEY : option jsstring;
  GROQ_API_KEY : option jsstring;
  store : jsstring -> jsstring -> query -> read_result;
  fetch : completion_request -> settled fetch_response;
  type_error_message : type_error -> jsstring;
}.

(** An HTTP response: status, the headers given to the constructor, body. *)
Record response := Response {
  status : nat;
  headers : list (jsstring * jsstring);
  body : option json;
}.

(** [NextResponse.json(body, { status, headers })]; the status defaults
    to 200. *)
Definition NextResponse_json (b : json) (st : option nat)
    (hs : list (jsstring * jsstring)) : response :=
  Response (default 200%nat st) hs (Some b).

(** ** Handler computations

    A computation runs against the log of calls issued so far and either
    returns or throws. *)
Definition handler (A : Type) : Type := list call -> settled A * list call.

#[global] Instance handler_ret : MRet handler := fun A a log => (Fulfilled a, log).
#[global] Instance handler_bind : MBind handler := fun A B k m log =>
  match m log with
  | (Fulfilled a, log') => k a log'
  | (Rejected e, log') => (Rejected e, log')
  end.

Definition throw {A} (e : error) : handler A := fun log => (Rejected e, log).

(** Record an outbound call. *)
Definition issue (c : call) : handler unit := fun log => (Fulfilled tt, log ++ [c]).

(** [await p] for a promise the world has already settled. *)
Definition await {A} (p : settled A) : handler A := fun log => (p, log).

(** A step of the engine that may raise a [TypeError]. *)
Definition engine {A} (w : world) (r : type_error + A) : handler A :=
  match r with
  | inl t => throw (Error (type_error_message w t))
  | inr a => mret a
  end.

(** [try { body } catch (e) { recover e }] around a whole handler. *)
Definition try_catch (body : handler response) (recover : error -> response)
    : response * list call :=
  match body [] with
  | (Fulfilled r, log) => (r, log)
  | (Rejected e, log) => (recover e, log)
  end.

(** [const { message, conversationHistory } = body] *)
Definition destructure (b : json) : type_error + (option json * option json) :=
  match b with
  | JNull => inl DestructureNull
  | _ => inr (get b (lit "message"), get b (lit "conversationHistory"))
  end.

(** [xs.slice(-n)]: the last [n] elements. *)
Definition slice_last {A} (n : nat) (xs : list A) : list A :=
  drop (length xs - n) xs.

(** [xs.map(f)] for a callback that may throw: stops at the first throw. *)
Fixpoint map_throwing {A B} (f : A -> type_error + B) (xs : list A)
    : type_error + list B :=
  match xs with
  | [] => inr []
  | x :: rest =>
    match f x with
    | inl e => inl e
    | inr y =>
      match map_throwing f rest with
      | inl e => inl e
      | inr ys => inr (y :: ys)
      end
    end
  end.

(** ** [src/app/api/chat/route.ts] *)

Module Route.

Definition corsHeaders : list (jsstring * jsstring) :=
  [ (lit "Access-Control-Allow-Origin", lit "*");
    (lit "Access-Control-Allow-Methods", lit "POST, OPTIONS");
    (lit "Access-Control-Allow-Headers", lit "Content-Type") ].

Definition OPTIONS : response := Response 204 corsHeaders None.

(** The essentials read and the search read. *)
Definition essentialsQuery : query :=
  Query (lit "portfolio_knowledge") (lit "project,type,title,content,tags")
    (FilterIn (lit "type")
       [ lit "bio"; lit "skills"; lit "education"; lit "certification";
         lit "philosophy"; lit "personal"; lit "contact" ])
    12.

Definition searchQuery (q : jsstring) : query :=
  Query (lit "portfolio_knowledge") (lit "project,type,title,content,tags")
    (FilterOr
       (join (lit ",")
          [ lit "title.ilike.%" ++ q ++ lit "%";
            lit "content.ilike.%" ++ q ++ lit "%";
            lit "tags.ilike.%" ++ q ++ lit "%";
            lit "project.ilike.%" ++ q ++ lit "%";
            lit "type.ilike.%" ++ q ++ lit "%" ]))
    12.

(** The key of the filter callback. *)
Definition key (r : row) : jsstring :=
  template (project r) ++ lit "|" ++ template (type r) ++ lit "|"
  ++ template (title r) ++ lit "|" ++ slice0 60 (or_empty (content r)).

(** [merged.filter(..)] with its captured set [seen]. *)
Fixpoint filter_seen (seen : gset jsstring) (rows : list row) : list row :=
  match rows with
  | [] => []
  | r :: rest =>
    if decide (key r ∈ seen) then filter_seen seen rest
    else r :: filter_seen ({[ key r ]} ∪ seen) rest
  end.

(** [data], from the [data] fields of the two read results. *)
Definition merge (searchData essentialsData : option (list row)) : list row :=
  let merged := default [] searchData ++ default [] essentialsData in
  take 16 (filter_seen ∅ merged).

(** The callback of [data.map(..)]: one block of the context. *)
Definition source_block (idx : nat) (r : row) : jsstring :=
  let title := trim (or_empty (title r)) in
  let type := trim (or_empty (type r)) in
  let content := trim (or_empty (content r)) in
  let tags := trim (or_empty (tags r)) in
  trim (lit "Source " ++ nat_to_string (idx + 1) ++ lit " [" ++ type
        ++ (if truthy title then lit " | " ++ title else [])
        ++ (if truthy tags then lit " | tags: " ++ tags else [])
        ++ lit "]" ++ nl ++ content).

Definition context (data : list row) : jsstring :=
  join (nl ++ nl) (imap source_block data).

Definition system : jsstring := Eval vm_compute in
  trim (text "
You are a portfolio assistant for Manthan Rase.

You MUST answer using ONLY the PORTFOLIO CONTEXT provided.
If the answer is not clearly in the context, respond exactly:
`I don't know based on my portfolio content.`

Critical rules:
- Do NOT paste or repeat the PORTFOLIO CONTEXT verbatim.
- Do NOT output database-style fields or labels such as `#1`, `Project:`, `Type:`, `Title:`, `Tags:`, `Content:`.
- Instead, synthesize the context into natural, recruiter-friendly sentences.

Experience rules:
- NEVER estimate years of experience from education dates.
- If the user asks about years of experience, you MUST look for `work experience` in the provided context.
- If the context contains a total like `3+ years`, you MUST use that exact number.
- If the context does NOT contain a total, say: `I don't know based on my portfolio content.`
- Keep the answer under 1–2 sentences.

Style:
- Keep answers concise, professional, and human.
- If the user asks a single word like `education`, treat it as `Tell me about your education` and summarize.

Projects rule:
- If the user asks for `projects` (or similar), list ONLY these 5 projects:
  UXLens-AI, Moodly, De Blaze, ParkIQ, Ghost Shooter.
  Do NOT include education, hobbies, skills, philosophy, or contact as projects.
  Tense + factuality rules:

- If an education entry has an end year in the future (e.g., 2026), you MUST say `currently pursuing` or `in progress`.
- NEVER say `has a Master’s degree` unless the context explicitly says completed/graduated.
- Keep answers under 2 sentences unless the user asks for more.
- Refer to the person as `Manthan` (not `you`) unless the user explicitly asks in first-person.

-Answer in 2–4 short sentences unless the user asks for more detail.

").

Definition max_tokens : nat := 300.

(** The callback of the history's [map]. *)
Definition history_line (m : json) : type_error + jsstring :=
  match m with
  | JNull => inl ReadOfNull
  | _ =>
    match interpolate (get m (lit "role")) with
    | inl e => inl e
    | inr r =>
      match interpolate (get m (lit "content")) with
      | inl e => inl e
      | inr c => inr (r ++ lit ": " ++ c)
      end
    end
  end.

(** [(conversationHistory ?? []).slice(-6).map(..).join("\n")] *)
Definition history (conversationHistory : option json) : type_error + jsstring :=
  match conversationHistory with
  | None | Some JNull => inr []
  | Some (JArr items) =>
    match map_throwing history_line (slice_last 6 items) with
    | inl e => inl e
    | inr lines => inr (join nl lines)
    end
  | Some (JStr _) => inl (NotAFunction (lit "map"))
  | Some _ => inl (NotAFunction (lit "slice"))
  end.

Definition user_content (data : list row) (context history message : jsstring)
    : jsstring :=
  (lit "PORTFOLIO CONTEXT (rows: " ++ nat_to_string (length data) ++ lit "):" ++ nl
     ++ context ++ nl ++ nl)
  ++ (lit "Conversation history (brief):" ++ nl ++ history ++ nl ++ nl)
  ++ (lit "User question:" ++ nl ++ message).

Definition completion (groqKey : jsstring) (messages : list prompt_message)
    : completion_request :=
  CompletionRequest
    (lit "https://api.groq.com/openai/v1/chat/completions")
    (lit "POST") (lit "application/json") (lit "Bearer " ++ groqKey)
    (lit "llama-3.1-8b-instant") messages (3 # 10) max_tokens.

(** [out?.choices?.[0]?.message?.content ?? "I don't know ..."] *)
Definition first_choice_content (out : json) : option json :=
  opt_get (opt_get (opt_get0 (opt_get (Some out) (lit "choices")))
             (lit "message")) (lit "content").

Definition answer (out : json) : json :=
  match first_choice_content out with
  | None | Some JNull => JStr (lit "I don't know based on my portfolio content.")
  | Some v => v
  end.

Definition error_body (err : jsstring) (details : option jsstring) : json :=
  match details with
  | None => JObj [ (lit "error", JStr err) ]
  | Some d => JObj [ (lit "error", JStr err); (lit "details", JStr d) ]
  end.

(** The handler is one [try] block; it is cut here at the two section
    comments of the source, last section first. The unused
    [isProjectQuestion] flag is computed from [message] alone, cannot
    throw and is never read; it is left out. *)

(** [// -------- Groq prompt --------]: the messages, the completion
    call and the answer. *)
Definition prompt_and_complete (w : world) (groqKey message : jsstring)
    (conversationHistory : option json) (data : list row) : handler response :=
  let context := context data in
  h ← engine w (history conversationHistory);
  let messages :=
    [ PromptMessage (lit "system") system;
      PromptMessage (lit "user") (user_content data context h message) ] in
  let r := completion groqKey messages in
  issue (CompletionCall r);;
  resp ← await (fetch w r);
  if negb (ok resp)
  then mret (NextResponse_json
               (error_body (lit "Groq request failed") (Some (resp_text resp)))
               (Some 500%nat) corsHeaders)
  else
    out ← await (resp_json resp);
    mret (NextResponse_json (JObj [ (lit "response", answer out) ])
            None corsHeaders).

(** [// -------- Retrieval: essentials + search --------]: both reads
    are issued, then awaited together. *)
Definition retrieve (w : world) (supabaseUrl supabaseAnonKey groqKey message : jsstring)
    (conversationHistory : option json) : handler response :=
  let supabase := store w supabaseUrl supabaseAnonKey in
  let q := trim message in
  issue (StoreRead supabaseUrl supabaseAnonKey essentialsQuery);;
  issue (StoreRead supabaseUrl supabaseAnonKey (searchQuery q));;
  let essentialsRes := supabase essentialsQuery in
  let searchRes := supabase (searchQuery q) in
  match read_error essentialsRes with
  | Some details =>
    mret (NextResponse_json
            (error_body (lit "Supabase essentials query failed") (Some details))
            (Some 500%nat) corsHeaders)
  | None =>
    match read_error searchRes with
    | Some details =>
      mret (NextResponse_json
              (error_body (lit "Supabase search query failed") (Some details))
              (Some 500%nat) corsHeaders)
    | None =>
      prompt_and_complete w groqKey message conversationHistory
        (merge (data searchRes) (data essentialsRes))
    end
  end.

(** The body of the [try] block: validation of the body and of the
    configuration, then the two sections above. *)
Definition POST_try (w : world) : handler response :=
  b ← await (req_json w);
  '(message, conversationHistory) ← engine w (destructure b);
  match message with
  | Some (JStr ((_ :: _) as message)) =>
    let supabaseUrl := NEXT_PUBLIC_SUPABASE_URL w in
    let supabaseAnonKey := NEXT_PUBLIC_SUPABASE_ANON_KEY w in
    let groqKey := GROQ_API_KEY w in
    if negb (truthy (or_empty supabaseUrl)) || negb (truthy (or_empty supabaseAnonKey))
    then mret (NextResponse_json
                 (error_body (lit "Missing Supabase env vars") None)
                 (Some 500%nat) corsHeaders)
    else if negb (truthy (or_empty groqKey))
    then mret (NextResponse_json
                 (error_body (lit "Missing GROQ_API_KEY") None)
                 (Some 500%nat) corsHeaders)
    else
      retrieve w (or_empty supabaseUrl) (or_empty supabaseAnonKey)
        (or_empty groqKey) message conversationHistory
  | _ =>
    mret (NextResponse_json (error_body (lit "Missing 'message'.") None)
            (Some 400%nat) corsHeaders)
  end.

(** The [catch] clause. *)
Definition POST_catch (e : error) : response :=
  NextResponse_json (error_body (lit "Server error") (Some (message e)))
    (Some 500%nat) corsHeaders.

(** The handler: the response and the calls issued, in order. *)
Definition POST (w : world) : response * list call :=
  try_catch (POST_try w) POST_catch.

End Route.

(** ** [src/unnamed/part_000] *)

Module Part000.

Definition corsHeaders : list (jsstring * jsstring) :=
  [ (lit "Access-Control-Allow-Origin", lit "*");
    (lit "Access-Control-Allow-Methods", lit "POST, OPTIONS");
    (lit "Access-Control-Allow-Headers", lit "Content-Type") ].

Definition OPTIONS : response := Response 204 corsHeaders None.

(** The essentials read and the search read. *)
Definition essentialsQuery : query :=
  Query (lit "portfolio_knowledge") (lit "project,type,title,content,tags")
    (FilterIn (lit "type")
       [ lit "bio"; lit "skills"; lit "education"; lit "certification";
         lit "philosophy"; lit "personal"; lit "contact" ])
    12.

Definition searchQuery (q : jsstring) : query :=
  Query (lit "portfolio_knowledge") (lit "project,type,title,content,tags")
    (FilterOr
       (join (lit ",")
          [ lit "title.ilike.%" ++ q ++ lit "%";
            lit "content.ilike.%" ++ q ++ lit "%";
            lit "tags.ilike.%" ++ q ++ lit "%";
            lit "project.ilike.%" ++ q ++ lit "%";
            lit "type.ilike.%" ++ q ++ lit "%" ]))
    12.

(** The key of the filter callback. *)
Definition key (r : row) : jsstring :=
  template (project r) ++ lit "|" ++ template (type r) ++ lit "|"
  ++ template (title r) ++ lit "|" ++ slice0 60 (or_empty (content r)).

(** [merged.filter(..)] with its captured set [seen]. *)
Fixpoint filter_seen (seen : gset jsstring) (rows : list row) : list row :=
  match rows with
  | [] => []
  | r :: rest =>
    if decide (key r ∈ seen) then filter_seen seen rest
    else r :: filter_seen ({[ key r ]} ∪ seen) rest
  end.

(** [data], from the [data] fields of the two read results. *)
Definition merge (searchData essentialsData : option (list row)) : list row :=
  let merged := default [] searchData ++ default [] essentialsData in
  take 16 (filter_seen ∅ merged).

(** The callback of [data.map(..)]: one block of the context. *)
Definition source_block (idx : nat) (r : row) : jsstring :=
  let title := trim (or_empty (title r)) in
  let type := trim (or_empty (type r)) in
  let content := trim (or_empty (content r)) in
  let tags := trim (or_empty (tags r)) in
  trim (lit "Source " ++ nat_to_string (idx + 1) ++ lit " [" ++ type
        ++ (if truthy title then lit " | " ++ title else [])
        ++ (if truthy tags then lit " | tags: " ++ tags else [])
        ++ lit "]" ++ nl ++ content).

Definition context (data : list row) : jsstring :=
  join (nl ++ nl) (imap source_block data).

Definition system : jsstring := Eval vm_compute in
  (text "
You are a portfolio assistant for Manthan Rase. Visitors (recruiters, collaborators, clients) use this chat to learn about him.

LENGTH RULE (CRITICAL — follow this above all else):
- Default: 1–2 sentences max.
- Only give a longer answer if the user explicitly asks to `elaborate`, `tell me more`, `explain in detail`, or similar.
- NEVER volunteer extra information that wasn’t asked for.

GREETING / SMALLTALK RULE (CRITICAL):
If the user says `hi`, `hello`, `hey`, `how are you`, `nice to meet you`, or any casual opener:
- Reply with exactly 1 casual line. Nothing more.
- Do NOT mention skills, projects, experience, or education.
- Example: `Hi! What would you like to know about Manthan?`

IDENTITY RULES:
- Speak about Manthan in third person.
- NEVER address the user as `Manthan`. NEVER assume the visitor’s name.

CONTEXT RULES:
- Answer ONLY from the PORTFOLIO CONTEXT provided.
- If the answer isn’t in the context, say: `I don’t know based on my portfolio content.`
- Do NOT repeat context verbatim or use database labels like `Project:`, `Tags:`, `Content:`.
- Synthesize into natural sentences.

PROJECTS RULE:
List ONLY these when asked about projects: UXLens-AI, Moodly, De Blaze, ParkIQ, Ghost Shooter.

EDUCATION RULE:
- If end year is in the future (e.g., 2026), say `currently pursuing`.
- NEVER say `has a Master’s degree` unless explicitly completed.

EXPERIENCE RULE:
- Describe as `3+ years` based on education dates.
- Keep to 1 sentence.
").

Definition max_tokens : nat := 120.

(** The callback of the history's [map]. *)
Definition history_line (m : json) : type_error + jsstring :=
  match m with
  | JNull => inl ReadOfNull
  | _ =>
    match interpolate (get m (lit "role")) with
    | inl e => inl e
    | inr r =>
      match interpolate (get m (lit "content")) with
      | inl e => inl e
      | inr c => inr (r ++ lit ": " ++ c)
      end
    end
  end.

(** [(conversationHistory ?? []).slice(-6).map(..).join("\n")] *)
Definition history (conversationHistory : option json) : type_error + jsstring :=
  match conversationHistory with
  | None | Some JNull => inr []
  | Some (JArr items) =>
    match map_throwing history_line (slice_last 6 items) with
    | inl e => inl e
    | inr lines => inr (join nl lines)
    end
  | Some (JStr _) => inl (NotAFunction (lit "map"))
  | Some _ => inl (NotAFunction (lit "slice"))
  end.

Definition user_content (data : list row) (context history message : jsstring)
    : jsstring :=
  (lit "PORTFOLIO CONTEXT (rows: " ++ nat_to_string (length data) ++ lit "):" ++ nl
     ++ context ++ nl ++ nl)
  ++ (lit "Conversation history (brief):" ++ nl ++ history ++ nl ++ nl)
  ++ (lit "User question:" ++ nl ++ message).

Definition completion (groqKey : jsstring) (messages : list prompt_message)
    : completion_request :=
  CompletionRequest
    (lit "https://api.groq.com/openai/v1/chat/completions")
    (lit "POST") (lit "application/json") (lit "Bearer " ++ groqKey)
    (lit "llama-3.1-8b-instant") messages (3 # 10) max_tokens.

(** [out?.choices?.[0]?.message?.content ?? "I don't know ..."] *)
Definition first_choice_content (out : json) : option json :=
  opt_get (opt_get (opt_get0 (opt_get (Some out) (lit "choices")))
             (lit "message")) (lit "content").

Definition answer (out : json) : json :=
  match first_choice_content out with
  | None | Some JNull => JStr (lit "I don't know based on my portfolio content.")
  | Some v => v
  end.

Definition error_body (err : jsstring) (details : option jsstring) : json :=
  match details with
  | None => JObj [ (lit "error", JStr err) ]
  | Some d => JObj [ (lit "error", JStr err); (lit "details", JStr d) ]
  end.

(** The handler is one [try] block; it is cut here at the two section
    comments of the source, last section first. The unused
    [isProjectQuestion] flag is computed from [message] alone, cannot
    throw and is never read; it is left out. *)

(** [// -------- Groq prompt --------]: the messages, the completion
    call and the answer. *)
Definition prompt_and_complete (w : world) (groqKey message : jsstring)
    (conversationHistory : option json) (data : list row) : handler response :=
  let context := context data in
  h ← engine w (history conversationHistory);
  let messages :=
    [ PromptMessage (lit "system") system;
      PromptMessage (lit "user") (user_content data context h message) ] in
  let r := completion groqKey messages in
  issue (CompletionCall r);;
  resp ← await (fetch w r);
  if negb (ok resp)
  then mret (NextResponse_json
               (error_body (lit "Groq request failed") (Some (resp_text resp)))
               (Some 500%nat) corsHeaders)
  else
    out ← await (resp_json resp);
    mret (NextResponse_json (JObj [ (lit "response", answer out) ])
            None corsHeaders).

(** [// -------- Retrieval: essentials + search --------]: both reads
    are issued, then awaited together. *)
Definition retrieve (w : world) (supabaseUrl supabaseAnonKey groqKey message : jsstring)
    (conversationHistory : option json) : handler response :=
  let supabase := store w supabaseUrl supabaseAnonKey in
  let q := trim message in
  issue (StoreRead supabaseUrl supabaseAnonKey essentialsQuery);;
  issue (StoreRead supabaseUrl supabaseAnonKey (searchQuery q));;
  let essentialsRes := supabase essentialsQuery in
  let searchRes := supabase (searchQuery q) in
  match read_error essentialsRes with
  | Some details =>
    mret (NextResponse_json
            (error_body (lit "Supabase essentials query failed") (Some details))
            (Some 500%nat) corsHeaders)
  | None =>
    match read_error searchRes with
    | Some details =>
      mret (NextResponse_json
              (error_body (lit "Supabase search query failed") (Some details))
              (Some 500%nat) corsHeaders)
    | None =>
      prompt_and_complete w groqKey message conversationHistory
        (merge (data searchRes) (data essentialsRes))
    end
  end.

(** The body of the [try] block: validation of the body and of the
    configuration, then the two sections above. *)
Definition POST_try (w : world) : handler response :=
  b ← await (req_json w);
  '(message, conversationHistory) ← engine w (destructure b);
  match message with
  | Some (JStr ((_ :: _) as message)) =>
    let supabaseUrl := NEXT_PUBLIC_SUPABASE_URL w in
    let supabaseAnonKey := NEXT_PUBLIC_SUPABASE_ANON_KEY w in
    let groqKey := GROQ_API_KEY w in
    if negb (truthy (or_empty supabaseUrl)) || negb (truthy (or_empty supabaseAnonKey))
    then mret (NextResponse_json
                 (error_body (lit "Missing Supabase env vars") None)
                 (Some 500%nat) corsHeaders)
    else if negb (truthy (or_empty groqKey))
    then mret (NextResponse_json
                 (error_body (lit "Missing GROQ_API_KEY") None)
                 (Some 500%nat) corsHeaders)
    else
      retrieve w (or_empty supabaseUrl) (or_empty supabaseAnonKey)
        (or_empty groqKey) message conversationHistory
  | _ =>
    mret (NextResponse_json (error_body (lit "Missing 'message'.") None)
            (Some 400%nat) corsHeaders)
  end.

(** The [catch] clause. *)
Definition POST_catch (e : error) : response :=
  NextResponse_json (error_body (lit "Server error") (Some (message e)))
    (Some 500%nat) corsHeaders.

(** The handler: the response and the calls issued, in order. *)
Definition POST (w : world) : response * list call :=
  try_catch (POST_try w) POST_catch.

End Part000.

(** ** Vocabulary of the statements *)




(** Row [r] stands at index [i] of [all] and no earlier row has its key. *)
Definition first_occurrence (all : list row) (i : nat) (r : row) : Prop :=
  all !! i = Some r ∧
  ∀ j r', (j < i)%nat → all !! j = Some r' → Route.key r' ≠ Route.key r.

(** How many rows of [rows] carry the key [k]. *)
Definition count_key (k : jsstring) (rows : list row) : nat :=
  length (filter (λ x, Route.key x = k) rows).



(** The request reaches the prompt section: the body parses, [message] is
    a non-empty string, the three variables are set and neither read
    reports an error. *)
Definition reaches_prompt (w : world) (message : jsstring) (history : option json)
    : Prop :=
  ∃ b,
    req_json w = Fulfilled b
    ∧ get b (lit "message") = Some (JStr message) ∧ message ≠ []
    ∧ get b (lit "conversationHistory") = history
    ∧ truthy (or_empty (NEXT_PUBLIC_SUPABASE_URL w)) = true
    ∧ truthy (or_empty (NEXT_PUBLIC_SUPABASE_ANON_KEY w)) = true
    ∧ truthy (or_empty (GROQ_API_KEY w)) = true
    ∧ read_error (store w (or_empty (NEXT_PUBLIC_SUPABASE_URL w))
                    (or_empty (NEXT_PUBLIC_SUPABASE_ANON_KEY w))
                    Route.essentialsQuery) = None
    ∧ read_error (store w (or_empty (NEXT_PUBLIC_SUPABASE_URL w))
                    (or_empty (NEXT_PUBLIC_SUPABASE_ANON_KEY w))
                    (Route.searchQuery (trim message))) = None.

(** A completion request with what the two handlers set differently
    blanked: the text of the system message and the token budget. *)
Definition erase_config (r : completion_request) : completion_request :=
  CompletionRequest (c_url r) (c_method r) (c_content_type r) (c_authorization r)
    (c_model r)
    (map (λ m, if decide (role m = lit "system") then PromptMessage (role m) [] else m)
         (c_messages r))
    (c_temperature r) 0.

Definition erase_call (c : call) : call :=
  match c with
  | CompletionCall r => CompletionCall (erase_config r)
  | StoreRead _ _ _ => c
  end.

(** Two runs with the same result and, up to the blanked configuration,
    the same calls. *)
Definition same_run {A} (x y : A * list call) : Prop :=
  fst x = fst y ∧ erase_call <$> snd x = erase_call <$> snd y.

(** ** Sample rows and worlds *)

(** Rows that differ in their title only. *)
Definition numbered (n : nat) : row :=
  Row None (Some (lit "project")) (Some (nat_to_string n)) (Some (lit "text")) None.

Definition search12 : list row := numbered <$> seq 1 12.
Definition essentials12 : list row := numbered <$> seq 13 12.

(** Two pairs of rows with different columns and one key. *)
Definition bar_in_project : row :=
  Row (Some (lit "a|b")) (Some (lit "c")) (Some (lit "t")) (Some (lit "x")) None.
Definition bar_in_type : row :=
  Row (Some (lit "a")) (Some (lit "b|c")) (Some (lit "t")) (Some (lit "x")) None.
Definition null_project : row :=
  Row None (Some (lit "bio")) (Some (lit "About")) (Some (lit "x")) None.
Definition text_null_project : row :=
  Row (Some (lit "null")) (Some (lit "bio")) (Some (lit "About")) (Some (lit "x")) None.

(** A row whose content starts with a label, and one without any. *)
Definition labelled_row : row :=
  Row None (Some (lit "bio")) None (Some (lit "Project: UXLens-AI")) None.
Definition plain_row : row :=
  Row (Some (lit "Project: hidden")) (Some (lit "bio")) (Some (lit "About"))
    (Some (lit " Designer and developer. ")) (Some (lit "ux, research")).

Definition quiet_store : jsstring → jsstring → query → read_result :=
  λ _ _ _, ReadResult (Some []) None.

Definition failing_store : jsstring → jsstring → query → read_result :=
  λ _ _ _, ReadResult None (Some (lit "permission denied")).

Definition empty_completion : completion_request → settled fetch_response :=
  λ _, Fulfilled (FetchResponse true (lit "{}") (Fulfilled (JObj []))).

Definition body_of (members : list (jsstring * json)) : settled json :=
  Fulfilled (JObj members).

(** A deployment with its three variables set, an empty table and a
    completion service that answers with an empty object. *)
Definition plain_world (b : settled json) : world :=
  World b (Some (lit "https://db.example")) (Some (lit "anon")) (Some (lit "gsk"))
    quiet_store empty_completion (λ _, lit "TypeError").

(** The same deployment with a store that refuses every read. *)
Definition refused_world (b : settled json) : world :=
  World b (Some (lit "https://db.example")) (Some (lit "anon")) (Some (lit "gsk"))
    failing_store empty_completion (λ _, lit "TypeError").

Definition hi : list (jsstring * json) := [ (lit "message", JStr (lit "hi")) ].

(** ** [src/components/AIChat.tsx] *)

(** The chat widget, without its markup: the state of the component, the
    setters of its four state variables, and [sendMessage] as the ordered
    list of what one call does (state updates and the request), given the
    state the call closes over and the outcome of the request. The two
    console calls are left out. *)

Module AIChat.

Inductive Role := user | assistant.

(** [Message]: [content] is a string by its type; at run time it is
    whatever the endpoint's body held, so it is a parsed value here. *)
Record Message := { role : Role; content : json }.

Definition role_name (r : Role) : jsstring :=
  match r with user => lit "user" | assistant => lit "assistant" end.

(** A message as [JSON.stringify] hands it over. *)
Definition Message_json (m : Message) : json :=
  JObj [ (lit "role", JStr (role_name (role m))); (lit "content", content m) ].

Record state := State {
  isOpen : bool;
  messages : list Message;
  input : jsstring;
  isLoading : bool;
}.

Inductive setter :=
| setIsOpen (v : bool)
| setMessages (v : list Message)
| setInput (v : jsstring)
| setIsLoading (v : bool).

Definition set (st : state) (s : setter) : state :=
  match s with
  | setIsOpen v => State v (messages st) (input st) (isLoading st)
  | setMessages v => State (isOpen st) v (input st) (isLoading st)
  | setInput v => State (isOpen st) (messages st) v (isLoading st)
  | setIsLoading v => State (isOpen st) (messages st) (input st) v
  end.

(** The argument of [fetch]; [body] is the value given to
    [JSON.stringify]. *)
Record request := Request {
  url : jsstring;
  method : jsstring;
  contentType : jsstring;
  body : json;
}.

(** What the widget reads of the response: [res.ok] and [res.json()]. *)
Record result := Result {
  res_ok : bool;
  res_json : settled json;
}.

Inductive effect :=
| Update (s : setter)
| Fetch (r : request).

(** Truthiness of a parsed value; the only falsy number of a JSON text is
    zero, rendered 0. *)
Definition truthy_json (v : json) : bool :=
  match v with
  | JNull => false
  | JBool b => b
  | JNum repr => negb (bool_decide (repr = lit "0"))
  | JStr s => truthy s
  | JArr _ | JObj _ => true
  end.

(** [a ?? b] *)
Definition or_else (a : option json) (b : json) : json :=
  match a with
  | None | Some JNull => b
  | Some v => v
  end.

(** [data?.answer ?? data?.response ?? data?.reply ?? data?.content ??
    (typeof data === "string" ? data : "")] *)
Definition assistantText (data : json) : json :=
  or_else (opt_get (Some data) (lit "answer"))
    (or_else (opt_get (Some data) (lit "response"))
       (or_else (opt_get (Some data) (lit "reply"))
          (or_else (opt_get (Some data) (lit "content"))
             (match data with JStr _ => data | _ => JStr [] end)))).

Definition apology : json :=
  JStr (lit "Sorry, something went wrong on my end. Mind trying that again in a bit?").

(** The content of the assistant message, from the settled request: the
    [try] block's value, or the [catch] clause's. *)
Definition reply (outcome : settled result) : json :=
  match outcome with
  | Rejected _ => apology
  | Fulfilled res =>
    if negb (res_ok res) then apology
    else
      match res_json res with
      | Rejected _ => apology
      | Fulfilled data =>
        let assistantText := assistantText data in
        if truthy_json assistantText then assistantText
        else JStr (lit "No response received.")
      end
  end.

Definition sendMessage (endpoint : jsstring) (st : state)
    (fetch : request → settled result) : list effect :=
  if negb (truthy (trim (input st))) || isLoading st then []
  else
    let userMessage := trim (input st) in
    let newMessages := messages st ++ [ {| role := user; content := JStr userMessage |} ] in
    let r :=
      Request endpoint (lit "POST") (lit "application/json")
        (JObj [ (lit "message", JStr userMessage);
                (lit "conversationHistory", JArr (Message_json <$> newMessages)) ]) in
    [ Update (setInput []);
      Update (setMessages newMessages);
      Update (setIsLoading true);
      Fetch r;
      Update (setMessages
                (newMessages ++ [ {| role := assistant; content := reply (fetch r) |} ]));
      Update (setIsLoading false) ].

Definition handleKeyDown (endpoint : jsstring) (st : state)
    (fetch : request → settled result) (key : jsstring) : list effect :=
  if decide (key = lit "Enter") then sendMessage endpoint st fetch else [].

(** [disabled] of the send button. *)
Definition sendDisabled (st : state) : bool :=
  negb (truthy (trim (input st))) || isLoading st.

(** The state once the effects have been applied in order. *)
Definition run (st : state) (effects : list effect) : state :=
  fold_left (λ st e, match e with Update s => set st s | Fetch _ => st end) effects st.

(** The requests among the effects. *)
Definition requests (effects : list effect) : list request :=
  omap (λ e, match e with Fetch r => Some r | Update _ => None end) effects.

End AIChat.

(** ** More vocabulary *)

(** [w] with another request body. *)
Definition with_body (w : world) (b : settled json) : world :=
  World b (NEXT_PUBLIC_SUPABASE_URL w) (NEXT_PUBLIC_SUPABASE_ANON_KEY w)
    (GROQ_API_KEY w) (store w) (fetch w) (type_error_message w).

(** The route as the widget's endpoint in deployment [w]: the route parses
    the value the widget serialised, [res.ok] says that the status is
    between 200 and 299, and [res.json()] is the body of the response. *)
Definition serve (w : world) (r : AIChat.request) : settled AIChat.result :=
  let res := fst (Route.POST (with_body w (Fulfilled (AIChat.body r)))) in
  Fulfilled
    (AIChat.Result ((200 <=? status res)%nat && (status res <? 300)%nat)
       (match body res with
        | Some b => Fulfilled b
        | None => Rejected (Error (lit "Unexpected end of JSON input"))
        end)).

(** A conversation turn with string members, as the widget sends them. *)
Definition turn (t : jsstring * jsstring) : json :=
  JObj [ (lit "role", JStr t.1); (lit "content", JStr t.2) ].

Definition turn_line (t : jsstring * jsstring) : jsstring :=
  t.1 ++ lit ": " ++ t.2.

(** The body of a completion with the documented shape:
    [{ choices: [{ message: { content } }, ...] }]. *)
Definition completion_body (content : json) (others : list json) : json :=
  JObj [ (lit "choices",
          JArr (JObj [ (lit "message", JObj [ (lit "content", content) ]) ] :: others)) ].

(** The filter expression of the search read. *)
Definition or_filters (q : query) : jsstring :=
  match q_filter q with
  | FilterOr filters => filters
  | FilterIn _ _ => []
  end.

(** How many commas a string holds. *)
Definition commas (s : jsstring) : nat := length (filter (λ c, c = 44) s).

(** A completion service that answers every request with [resp]. *)
Definition answering (resp : fetch_response) : completion_request → settled fetch_response :=
  λ _, Fulfilled resp.

(** A deployment with its three variables set, an empty table and the
    given completion service. *)
Definition world_with (fetch : completion_request → settled fetch_response)
    (b : settled json) : world :=
  World b (Some (lit "https://db.example")) (Some (lit "anon")) (Some (lit "gsk"))
    quiet_store fetch (λ _, lit "TypeError").

(** Three replies of the completion service with a success status: a
    body that is no JSON, so that [resp.json()] rejects, and two bodies
    of the documented shape whose first choice's content is the number 7
    and the empty string. *)
Definition not_json_reply : fetch_response :=
  FetchResponse true (lit "<html>")
    (Rejected (Error (lit "Unexpected token '<' is not valid JSON"))).

Definition number_reply : fetch_response :=
  FetchResponse true [] (Fulfilled (completion_body (JNum (lit "7")) [])).

Definition empty_text_reply : fetch_response :=
  FetchResponse true [] (Fulfilled (completion_body (JStr []) [])).

(** ** Proof tools *)

Arguments lit : simpl never.
Arguments trim : simpl never.

(** Unfolds the operations of [handler]. *)
Ltac run_handler :=
  unfold await, engine, issue, throw;
  unfold mbind, handler_bind, mret, handler_ret; cbv beta zeta.

(** * Properties *)

(** ** The embedding on small inputs *)

Example lit_ascii : lit "a|b" = [97; 124; 98].
Proof. reflexivity. Qed.

Example text_units : text "1–2’—`" = [49; 8211; 50; 8217; 8212; 34].
Proof. reflexivity. Qed.

Example trim_ex : trim ([32; 10] ++ lit "a b" ++ [9; 160; 65279]) = lit "a b".
Proof. reflexivity. Qed.

Example nat_to_string_ex : nat_to_string 16 = lit "16" ∧ nat_to_string 0 = lit "0".
Proof. split; reflexivity. Qed.

Example to_string_ex :
  to_string (JArr [JNum (lit "1"); JNull; JArr [JStr (lit "a"); JBool true]; JObj []])
  = inr (lit "1,,a,true,[object Object]").
Proof. reflexivity. Qed.

Example system_ex :
  take 20 Route.system = lit "You are a portfolio "
  ∧ length Route.system = 1746%nat ∧ length Part000.system = 1469%nat
  ∧ 8217 ∈ Route.system ∧ 8212 ∈ Part000.system ∧ 34 ∈ Route.system.
Proof. split_and!; try reflexivity; by apply (bool_decide_unpack _). Qed.

Example context_ex :
  Route.context [plain_row; labelled_row]
  = lit "Source 1 [bio | About | tags: ux, research]" ++ nl
    ++ lit "Designer and developer." ++ nl ++ nl
    ++ lit "Source 2 [bio]" ++ nl ++ lit "Project: UXLens-AI".
Proof. reflexivity. Qed.

Example history_ex :
  Route.history (Some (JArr [ JObj [ (lit "role", JStr (lit "user"));
                                     (lit "content", JStr (lit "hello")) ];
                              JStr (lit "x") ]))
  = inr (lit "user: hello" ++ nl ++ lit "undefined: undefined")
  ∧ Route.history (Some (JArr [JNull])) = inl ReadOfNull
  ∧ Route.history (Some (JStr (lit "abc"))) = inl (NotAFunction (lit "map"))
  ∧ Route.history (Some (JBool true)) = inl (NotAFunction (lit "slice"))
  ∧ Route.history (Some JNull) = inr [] ∧ Route.history None = inr [].
Proof. split_and!; reflexivity. Qed.

(** ** Occurrences in strings *)

Section strings.

















End strings.


(** ** The retrieval merger *)

Section merger.
Import Route.

Lemma filter_seen_sublist seen rows : filter_seen seen rows `sublist_of` rows.
Proof.
  revert seen. induction rows as [|r rows IH]; intros seen; simpl.
  - constructor.
  - destruct (decide (key r ∈ seen)).
    + apply sublist_cons, IH.
    + apply sublist_skip, IH.
Qed.

(** A survivor's key was not in the set when the filter started. *)
Lemma filter_seen_fresh seen rows r :
  r ∈ filter_seen seen rows → key r ∉ seen.
Proof.
  revert seen. induction rows as [|x rows IH]; intros seen; simpl.
  - intros H. by apply elem_of_nil in H.
  - destruct (decide (key x ∈ seen)) as [Hx|Hx].
    + apply IH.
    + intros [->|H]%elem_of_cons; [done|].
      apply IH in H. set_solver.
Qed.

Lemma count_key_cons k r rows :
  count_key k (r :: rows)
  = ((if decide (key r = k) then 1 else 0) + count_key k rows)%nat.
Proof.
  unfold count_key. rewrite filter_cons. by case_decide.
Qed.

(** Every key outside the set that some row carries survives once. *)
Lemma filter_seen_count seen rows k :
  count_key k (filter_seen seen rows)
  = if decide ((k ∉ seen) ∧ (k ∈ (key <$> rows))) then 1%nat else 0%nat.
Proof.
  revert seen. induction rows as [|r rows IH]; intros seen; cbn [filter_seen].
  - case_decide as H; [|done]. destruct H as [_ H]. by apply elem_of_nil in H.
  - rewrite fmap_cons. destruct (decide (key r ∈ seen)) as [Hr|Hr].
    + rewrite IH. do 2 destruct (decide _); try done; exfalso; set_solver.
    + rewrite count_key_cons, IH.
      do 3 destruct (decide _); try done; exfalso; set_solver.
Qed.

Lemma filter_seen_first seen rows r0 :
  r0 ∈ filter_seen seen rows → ∃ i, first_occurrence rows i r0.
Proof.
  revert seen. induction rows as [|r rows IH]; intros seen; simpl.
  - intros H. by apply elem_of_nil in H.
  - destruct (decide (key r ∈ seen)) as [Hr|Hr].
    + intros H. pose proof (filter_seen_fresh _ _ _ H) as Hfresh.
      destruct (IH _ H) as (i & Hi & Hbefore).
      exists (S i). split; [done|].
      intros [|j] r' Hj Hr'; simplify_eq/=.
      * congruence.
      * eapply Hbefore; [|done]. lia.
    + intros [->|H]%elem_of_cons.
      * exists 0%nat. split; [done|]. intros; lia.
      * pose proof (filter_seen_fresh _ _ _ H) as Hfresh.
        destruct (IH _ H) as (i & Hi & Hbefore).
        exists (S i). split; [done|].
        intros [|j] r' Hj Hr'; simplify_eq/=.
        -- set_solver.
        -- eapply Hbefore; [|done]. lia.
Qed.

(** Two increasing lists of indices with the same members are equal. *)
Lemma increasing_unique (l1 l2 : list nat) :
  StronglySorted lt l1 → StronglySorted lt l2 →
  (∀ i, i ∈ l1 ↔ i ∈ l2) → l1 = l2.
Proof.
  intros H1. revert l2.
  induction H1 as [|a l1 H1 IH Ha]; intros l2 H2 Hm.
  - destruct l2 as [|b l2]; [done|]. exfalso.
    apply (elem_of_nil b), Hm. by left.
  - destruct H2 as [|b l2 H2 Hb].
    + exfalso. apply (elem_of_nil a), Hm. by left.
    + rewrite Forall_forall in Ha, Hb.
      assert (a = b) as ->.
      { assert (a ∈ b :: l2) as [->|Hab]%elem_of_cons by (apply Hm; by left);
          [done|].
        assert (b ∈ a :: l1) as [->|Hba]%elem_of_cons by (apply Hm; by left);
          [done|].
        apply Ha in Hba. apply Hb in Hab. lia. }
      f_equal. apply IH; [done|]. intros i. split; intros Hi.
      * assert (i ∈ b :: l2) as [->|?]%elem_of_cons by (apply Hm; by right);
          [|done].
        apply Ha in Hi. lia.
      * assert (i ∈ b :: l1) as [->|?]%elem_of_cons by (apply Hm; by right);
          [|done].
        apply Hb in Hi. lia.
Qed.

(** The filter keeps the rows at the indices whose row has a key that is
    neither in the set nor carried by an earlier row, in increasing order
    of the index. *)
Lemma filter_seen_indices seen rows :
  ∃ idx,
    Forall2 (λ i r, rows !! i = Some r) idx (filter_seen seen rows)
    ∧ StronglySorted lt idx
    ∧ ∀ i, i ∈ idx ↔ ∃ r, (key r ∉ seen) ∧ first_occurrence rows i r.
Proof.
  revert seen. induction rows as [|x rows IH]; intros seen; cbn [filter_seen].
  - exists []. split; [constructor|]. split; [constructor|].
    intros i. split; [by intros ?%elem_of_nil|].
    by intros (r & _ & Hr & _).
  - destruct (decide (key x ∈ seen)) as [Hx|Hx].
    + destruct (IH seen) as (idx & Hat & Hinc & Hmem).
      exists (S <$> idx). split; [|split].
      * apply Forall2_fmap_l. eapply Forall2_impl; [exact Hat|]. by intros.
      * eapply StronglySorted_fmap; [|exact Hinc]. intros ???; simpl; lia.
      * intros i. rewrite list_elem_of_fmap. split.
        -- intros (i' & -> & Hi'). apply Hmem in Hi' as (r & Hr & Hi' & Hbefore).
           exists r. split; [done|]. split; [done|].
           intros [|j] r' Hj Hr'; simplify_eq/=; [congruence|].
           eapply Hbefore; [|done]. lia.
        -- intros (r & Hr & Hi & Hbefore). destruct i as [|i'].
           { simplify_eq/=. done. }
           exists i'. split; [done|]. apply Hmem. exists r.
           split; [done|]. split; [done|].
           intros j r' Hj Hr'. apply (Hbefore (S j)); [lia|done].
    + destruct (IH ({[ key x ]} ∪ seen)) as (idx & Hat & Hinc & Hmem).
      exists (0%nat :: (S <$> idx)). split; [|split].
      * constructor; [done|].
        apply Forall2_fmap_l. eapply Forall2_impl; [exact Hat|]. by intros.
      * constructor.
        -- eapply StronglySorted_fmap; [|exact Hinc]. intros ???; simpl; lia.
        -- apply Forall_fmap, Forall_true. intros; simpl; lia.
      * intros i. rewrite elem_of_cons, list_elem_of_fmap. split.
        -- intros [->|(i' & -> & Hi')].
           { exists x. split; [done|]. split; [done|]. intros; lia. }
           apply Hmem in Hi' as (r & Hr & Hi' & Hbefore).
           exists r. split; [set_solver|]. split; [done|].
           intros [|j] r' Hj Hr'; simplify_eq/=; [set_solver|].
           eapply Hbefore; [|done]. lia.
        -- intros (r & Hr & Hi & Hbefore). destruct i as [|i']; [by left|].
           right. exists i'. split; [done|]. apply Hmem. exists r.
           split; [|split; [done|]].
           ++ assert (key x ≠ key r) by (apply (Hbefore 0%nat); [lia|done]).
              set_solver.
           ++ intros j r' Hj Hr'. apply (Hbefore (S j)); [lia|done].
Qed.

(** C1, as amended: the merger's output is the first sixteen rows of the
    sequence of survivors.  The survivors are the rows of the search
    results followed by the essentials that stand at the indices [idx],
    in that order, where [idx] lists in increasing order exactly the
    indices at which a row is the first of the concatenation with its
    key; so the survivors stand in the order of the concatenation, hold
    exactly one row for every key that occurs in it, and no other
    sequence of rows is described by these conditions.  The key is the
    string the filter callback builds. *)
Theorem merge_first_occurrences (searchData essentialsData : option (list row)) :
  ∃ survivors idx,
    merge searchData essentialsData = take 16 survivors
    ∧ Forall2 (λ i r, (default [] searchData ++ default [] essentialsData) !! i
                      = Some r) idx survivors
    ∧ StronglySorted lt idx
    ∧ (∀ i, i ∈ idx ↔
            ∃ r, first_occurrence
                   (default [] searchData ++ default [] essentialsData) i r)
    ∧ survivors `sublist_of` (default [] searchData ++ default [] essentialsData)
    ∧ (∀ r, r ∈ default [] searchData ++ default [] essentialsData →
            count_key (key r) survivors = 1%nat)
    ∧ (∀ r0, r0 ∈ survivors →
            ∃ i, first_occurrence
                   (default [] searchData ++ default [] essentialsData) i r0)
    ∧ (∀ survivors' idx',
          Forall2 (λ i r, (default [] searchData ++ default [] essentialsData) !! i
                          = Some r) idx' survivors' →
          StronglySorted lt idx' →
          (∀ i, i ∈ idx' ↔
                ∃ r, first_occurrence
                       (default [] searchData ++ default [] essentialsData) i r) →
          survivors' = survivors ∧ idx' = idx).
Proof.
  destruct (filter_seen_indices ∅
              (default [] searchData ++ default [] essentialsData))
    as (idx & Hat & Hinc & Hmem).
  assert (∀ i, i ∈ idx ↔
            ∃ r, first_occurrence
                   (default [] searchData ++ default [] essentialsData) i r)
    as Hmem'.
  { intros i. rewrite Hmem. split.
    - intros (r & _ & Hr). by exists r.
    - intros (r & Hr). exists r. split; [set_solver|done]. }
  exists (filter_seen ∅ (default [] searchData ++ default [] essentialsData)), idx.
  split; [done|]. split; [done|]. split; [done|]. split; [done|].
  split; [apply filter_seen_sublist|]. split; [|split].
  - intros r Hr. rewrite filter_seen_count. case_decide as H; [done|].
    exfalso. apply H. split; [set_solver|]. by apply list_elem_of_fmap_2.
  - intros r0. apply filter_seen_first.
  - intros survivors' idx' Hat' Hinc' Hmem''.
    assert (idx' = idx) as ->.
    { apply increasing_unique; [done..|]. intros i. by rewrite Hmem', Hmem''. }
    split; [|done].
    eapply Forall2_unique; [exact Hat'|exact Hat|]. intros; congruence.
Qed.

(** C1 as stated fails: with twelve search rows and twelve essentials of
    twenty-four different keys, the seventeenth row is the first (and only)
    row with its key, and the output holds no row with that key. *)
Lemma merge_drops_first_occurrence :
  length search12 = 12%nat ∧ length essentials12 = 12%nat
  ∧ numbered 17 ∈ search12 ++ essentials12
  ∧ first_occurrence (search12 ++ essentials12) 16 (numbered 17)
  ∧ count_key (key (numbered 17)) (merge (Some search12) (Some essentials12)) = 0%nat.
Proof.
  split; [done|]. split; [done|]. split; [|split].
  - by apply (list_elem_of_lookup_2 _ 16%nat).
  - split; [reflexivity|].
    intros j r' Hj Hr'.
    do 16 (destruct j as [|j]; [simplify_eq/=; by vm_compute|]). lia.
  - by vm_compute.
Qed.

(** C2: whatever the two row lists, the merger's output has at most
    sixteen rows. *)
Theorem merge_at_most_16 (searchData essentialsData : option (list row)) :
  (length (merge searchData essentialsData) ≤ 16)%nat.
Proof. unfold merge. rewrite length_take. lia. Qed.

End merger.

(** C9: the key is the four renderings joined by a bar, a null project,
    type or title rendered as the text null and a null content as the
    empty string; two rows with different columns then share a key, in
    either handler, and the merger drops the second one. *)
Theorem key_collisions :
  (∀ r, Route.key r
        = join (lit "|") [ template (project r); template (type r);
                           template (title r); take 60 (or_empty (content r)) ])
  ∧ (∀ r, Part000.key r = Route.key r)
  ∧ template None = lit "null"
  ∧ (project bar_in_project, type bar_in_project)
      ≠ (project bar_in_type, type bar_in_type)
  ∧ Route.key bar_in_project = Route.key bar_in_type
  ∧ Route.merge (Some [bar_in_project; bar_in_type]) None = [bar_in_project]
  ∧ Part000.merge (Some [bar_in_project; bar_in_type]) None = [bar_in_project]
  ∧ project null_project ≠ project text_null_project
  ∧ Route.key null_project = Route.key text_null_project
  ∧ Route.merge (Some [null_project]) (Some [text_null_project]) = [null_project]
  ∧ Part000.merge (Some [null_project]) (Some [text_null_project]) = [null_project].
Proof.
  split_and!; try done; by vm_compute.
Qed.

(** ** The context formatter *)

Section formatter.
Import Route.









End formatter.

(** ** The request handler *)

Section handler.
Import Route.

Lemma prompt_and_complete_returns w g m h d log r log' :
  prompt_and_complete w g m h d log = (Fulfilled r, log') →
  headers r = corsHeaders ∧ (status r = 200 ∨ status r = 500)%nat.
Proof.
  unfold prompt_and_complete. run_handler. intros H.
  repeat case_match; simplify_eq/=; auto.
Qed.

Lemma retrieve_returns w u k g m h log r log' :
  retrieve w u k g m h log = (Fulfilled r, log') →
  headers r = corsHeaders ∧ (status r = 200 ∨ status r = 500)%nat.
Proof.
  unfold retrieve. run_handler.
  repeat case_match; try (intros; simplify_eq/=; by auto).
  apply prompt_and_complete_returns.
Qed.

Lemma POST_try_returns w log r log' :
  POST_try w log = (Fulfilled r, log') →
  headers r = corsHeaders ∧ (status r = 200 ∨ status r = 400 ∨ status r = 500)%nat.
Proof.
  unfold POST_try. run_handler.
  repeat case_match; try (intros; simplify_eq/=; by auto).
  all: intros [? ?]%retrieve_returns; split; [done|tauto].
Qed.

(** A run that issues a call has passed validation. *)
Lemma POST_issues_calls w :
  snd (POST w) ≠ [] →
  ∃ b message,
    req_json w = Fulfilled b
    ∧ get b (lit "message") = Some (JStr message) ∧ message ≠ []
    ∧ POST w = try_catch
                 (retrieve w (or_empty (NEXT_PUBLIC_SUPABASE_URL w))
                    (or_empty (NEXT_PUBLIC_SUPABASE_ANON_KEY w))
                    (or_empty (GROQ_API_KEY w)) message
                    (get b (lit "conversationHistory")))
                 POST_catch.
Proof.
  unfold POST, try_catch at 1, POST_try. run_handler.
  destruct (req_json w) as [b|e]; [|done].
  destruct b; try done; cbn [destructure];
  (match goal with
   | |- context [get ?b (lit "message")] =>
       destruct (get b (lit "message")) as [[| | |[|c s]| |]|] eqn:E; try done
   end);
  repeat (match goal with |- context [if ?c then _ else _] => destruct c end; try done);
  intros _; eexists _, _; (split; [done|]); (split; [done|]); (split; [done|]);
  done.
Qed.

(** A request that passes validation runs the retrieval section. *)
Lemma POST_validated w b message :
  req_json w = Fulfilled b →
  get b (lit "message") = Some (JStr message) → message ≠ [] →
  truthy (or_empty (NEXT_PUBLIC_SUPABASE_URL w)) = true →
  truthy (or_empty (NEXT_PUBLIC_SUPABASE_ANON_KEY w)) = true →
  truthy (or_empty (GROQ_API_KEY w)) = true →
  POST w = try_catch
             (retrieve w (or_empty (NEXT_PUBLIC_SUPABASE_URL w))
                (or_empty (NEXT_PUBLIC_SUPABASE_ANON_KEY w))
                (or_empty (GROQ_API_KEY w)) message
                (get b (lit "conversationHistory")))
             POST_catch.
Proof.
  intros Hb Hmsg Hne Hu Hk Hg.
  unfold POST, try_catch at 1, POST_try. run_handler.
  rewrite Hb. destruct b; try done; cbn [destructure];
    rewrite Hmsg, Hu, Hk, Hg; by destruct message.
Qed.

Lemma retrieve_run w u k g m h :
  retrieve w u k g m h [] =
    match read_error (store w u k essentialsQuery) with
    | Some details =>
      (Fulfilled (NextResponse_json
                    (error_body (lit "Supabase essentials query failed") (Some details))
                    (Some 500%nat) corsHeaders),
       [StoreRead u k essentialsQuery; StoreRead u k (searchQuery (trim m))])
    | None =>
      match read_error (store w u k (searchQuery (trim m))) with
      | Some details =>
        (Fulfilled (NextResponse_json
                      (error_body (lit "Supabase search query failed") (Some details))
                      (Some 500%nat) corsHeaders),
         [StoreRead u k essentialsQuery; StoreRead u k (searchQuery (trim m))])
      | None =>
        prompt_and_complete w g m h
          (merge (data (store w u k (searchQuery (trim m))))
                 (data (store w u k essentialsQuery)))
          [StoreRead u k essentialsQuery; StoreRead u k (searchQuery (trim m))]
      end
    end.
Proof.
  unfold retrieve. run_handler. cbn [app].
  by repeat case_match.
Qed.

Lemma prompt_and_complete_run w g m h d log :
  prompt_and_complete w g m h d log =
    match history h with
    | inl t => (Rejected (Error (type_error_message w t)), log)
    | inr lines =>
      let r := completion g
                 [ PromptMessage (lit "system") system;
                   PromptMessage (lit "user") (user_content d (context d) lines m) ] in
      (match fetch w r with
       | Rejected e => Rejected e
       | Fulfilled resp =>
         if ok resp
         then match resp_json resp with
              | Rejected e => Rejected e
              | Fulfilled out =>
                Fulfilled (NextResponse_json (JObj [ (lit "response", answer out) ])
                             None corsHeaders)
              end
         else Fulfilled (NextResponse_json
                           (error_body (lit "Groq request failed")
                              (Some (resp_text resp)))
                           (Some 500%nat) corsHeaders)
       end, log ++ [CompletionCall r])
    end.
Proof.
  unfold prompt_and_complete. run_handler.
  destruct (history h) as [t|lines]; [done|].
  match goal with |- context [fetch w ?r] => destruct (fetch w r) as [resp|e] end;
    [|done].
  destruct (ok resp); cbn [negb]; [|done].
  by destruct (resp_json resp).
Qed.

(** The calls of a run that passed validation: the two reads, then the
    completion call when neither read failed and the history was
    rendered. *)
Lemma retrieve_calls w u k g m h :
  snd (retrieve w u k g m h []) =
    [StoreRead u k essentialsQuery; StoreRead u k (searchQuery (trim m))]
    ++ match read_error (store w u k essentialsQuery),
             read_error (store w u k (searchQuery (trim m))),
             history h with
       | None, None, inr lines =>
         [CompletionCall
            (completion g
               [ PromptMessage (lit "system") system;
                 PromptMessage (lit "user")
                   (user_content
                      (merge (data (store w u k (searchQuery (trim m))))
                             (data (store w u k essentialsQuery)))
                      (context (merge (data (store w u k (searchQuery (trim m))))
                                      (data (store w u k essentialsQuery))))
                      lines m) ])]
       | _, _, _ => []
       end.
Proof.
  rewrite retrieve_run.
  destruct (read_error (store w u k essentialsQuery)); [done|].
  destruct (read_error (store w u k (searchQuery (trim m)))); [done|].
  rewrite prompt_and_complete_run. by destruct (history h).
Qed.

Lemma POST_calls w b message :
  POST w = try_catch
             (retrieve w (or_empty (NEXT_PUBLIC_SUPABASE_URL w))
                (or_empty (NEXT_PUBLIC_SUPABASE_ANON_KEY w))
                (or_empty (GROQ_API_KEY w)) message
                (get b (lit "conversationHistory")))
             POST_catch →
  snd (POST w) = snd (retrieve w (or_empty (NEXT_PUBLIC_SUPABASE_URL w))
                        (or_empty (NEXT_PUBLIC_SUPABASE_ANON_KEY w))
                        (or_empty (GROQ_API_KEY w)) message
                        (get b (lit "conversationHistory")) []).
Proof.
  intros ->. unfold try_catch. by destruct (retrieve _ _ _ _ _ _ _) as [[?|?] ?].
Qed.

(** C3, as amended: when the parsed body is not null and its message is
    missing or is not a string, the handler answers 400 with the error
    envelope and issues no read and no completion call. *)
Theorem missing_message (w : world) (b : json) :
  req_json w = Fulfilled b → b ≠ JNull →
  (∀ s, get b (lit "message") ≠ Some (JStr s)) →
  POST w = (NextResponse_json (error_body (lit "Missing 'message'.") None)
              (Some 400%nat) corsHeaders, []).
Proof.
  intros Hb Hnull Hmsg. unfold POST, try_catch, POST_try. run_handler.
  rewrite Hb. unfold destructure.
  destruct (get b (lit "message")) as [[| | |s| |]|] eqn:E;
    try (by destruct b).
  by destruct (Hmsg s).
Qed.

Lemma missing_message_witness :
  POST (plain_world (body_of [ (lit "message", JNum (lit "5")) ]))
  = (NextResponse_json (error_body (lit "Missing 'message'.") None)
       (Some 400%nat) corsHeaders, []).
Proof.
  apply (missing_message _ (JObj [ (lit "message", JNum (lit "5")) ])).
  - reflexivity.
  - discriminate.
  - intros s. vm_compute. discriminate.
Defined.

(** C3 as stated fails: the body null parses, has no message, and gets
    500 from the catch clause (still without any call). *)
Lemma null_body_is_server_error :
  req_json (plain_world (Fulfilled JNull)) = Fulfilled JNull
  ∧ get JNull (lit "message") = None
  ∧ status (fst (POST (plain_world (Fulfilled JNull)))) = 500%nat
  ∧ snd (POST (plain_world (Fulfilled JNull))) = [].
Proof. by vm_compute. Qed.

(** C4: when a read the handler issued reports an error, the response is
    500, its details are the message the essentials read reported if that
    read failed and the message of the search read otherwise, and no
    completion call is made. *)
Theorem store_failure (w : world) (url key : jsstring) (q : query) (m : jsstring) :
  StoreRead url key q ∈ snd (POST w) →
  read_error (store w url key q) = Some m →
  fst (POST w) =
    NextResponse_json
      (match read_error (store w url key essentialsQuery) with
       | Some m' => error_body (lit "Supabase essentials query failed") (Some m')
       | None => error_body (lit "Supabase search query failed") (Some m)
       end) (Some 500%nat) corsHeaders
  ∧ status (fst (POST w)) = 500%nat
  ∧ ∀ r, CompletionCall r ∉ snd (POST w).
Proof.
  intros Hin Hm.
  destruct (POST_issues_calls w) as (b & message & Hb & Hmsg & Hne & HP).
  { intros Hnil. rewrite Hnil in Hin. by apply elem_of_nil in Hin. }
  rewrite (POST_calls w b message HP), retrieve_calls in *.
  rewrite HP. unfold try_catch. rewrite retrieve_run.
  destruct (read_error (store w _ _ essentialsQuery)) as [m1|] eqn:E1;
    [|destruct (read_error (store w _ _ (searchQuery _))) as [m2|] eqn:E2];
    cbn [fst snd app] in *.
  - apply elem_of_cons in Hin as [Hin|Hin%list_elem_of_singleton]; simplify_eq;
      rewrite E1; (split; [done|]); (split; [done|]); intros r Hr; set_solver.
  - apply elem_of_cons in Hin as [Hin|Hin%list_elem_of_singleton]; simplify_eq.
    rewrite E1. split; [by simplify_eq|]. split; [done|]. intros r Hr; set_solver.
  - exfalso. destruct (history _);
      set_unfold in Hin; destruct_or?; simplify_eq; congruence.
Qed.

Lemma store_failure_witness :
  fst (POST (refused_world (body_of hi)))
  = NextResponse_json
      (error_body (lit "Supabase essentials query failed")
         (Some (lit "permission denied")))
      (Some 500%nat) corsHeaders
  ∧ status (fst (POST (refused_world (body_of hi)))) = 500%nat
  ∧ ∀ r, CompletionCall r ∉ snd (POST (refused_world (body_of hi))).
Proof.
  apply (store_failure (refused_world (body_of hi)) (lit "https://db.example")
           (lit "anon") (searchQuery (lit "hi")) (lit "permission denied")).
  - by apply (list_elem_of_lookup_2 _ 1%nat).
  - reflexivity.
Defined.

(** C5, as amended: when the completion service answers the handler's
    call with a success status and a body that parses as JSON and in which
    [out?.choices?.[0]?.message?.content] is undefined or null, the
    response is 200 and its [response] member is the fallback sentence. *)
Theorem no_answer_fallback (w : world) (r : completion_request)
    (resp : fetch_response) (out : json) :
  CompletionCall r ∈ snd (POST w) →
  fetch w r = Fulfilled resp → ok resp = true → resp_json resp = Fulfilled out →
  first_choice_content out = None ∨ first_choice_content out = Some JNull →
  fst (POST w) =
    NextResponse_json
      (JObj [ (lit "response",
               JStr (lit "I don't know based on my portfolio content.")) ])
      None corsHeaders
  ∧ status (fst (POST w)) = 200%nat.
Proof.
  intros Hin Hfetch Hok Hjson Hnone.
  assert (answer out = JStr (lit "I don't know based on my portfolio content."))
    as Hanswer by (unfold answer; by destruct Hnone as [-> | ->]).
  clear Hnone.
  destruct (POST_issues_calls w) as (b & message & Hb & Hmsg & Hne & HP).
  { intros Hnil. rewrite Hnil in Hin. by apply elem_of_nil in Hin. }
  rewrite (POST_calls w b message HP), retrieve_calls in Hin.
  rewrite HP. unfold try_catch. rewrite retrieve_run.
  destruct (read_error (store w _ _ essentialsQuery)) as [m1|] eqn:E1;
    [|destruct (read_error (store w _ _ (searchQuery _))) as [m2|] eqn:E2];
    try (set_unfold in Hin; destruct_or?; by simplify_eq).
  rewrite prompt_and_complete_run.
  destruct (history _) as [t|lines];
    [set_unfold in Hin; destruct_or?; by simplify_eq|].
  cbv zeta. set_unfold in Hin. destruct_or?; simplify_eq.
  by rewrite Hfetch, Hok, Hjson, Hanswer.
Qed.

Lemma no_answer_fallback_witness :
  fst (POST (plain_world (body_of hi)))
  = NextResponse_json
      (JObj [ (lit "response",
               JStr (lit "I don't know based on my portfolio content.")) ])
      None corsHeaders
  ∧ status (fst (POST (plain_world (body_of hi)))) = 200%nat.
Proof.
  eapply (no_answer_fallback (plain_world (body_of hi)) _ _ (JObj [])).
  - apply (list_elem_of_lookup_2 _ 2%nat). vm_compute. reflexivity.
  - reflexivity.
  - reflexivity.
  - reflexivity.
  - left. reflexivity.
Defined.

(** C5 as stated fails: in a deployment where the handler calls the
    completion service and the service answers with a success status,
    a body that is no JSON yields no answer text and the response is 500
    with the error envelope; a first choice whose content is the number 7
    holds no text and the response relays 7; a content that is the empty
    string is relayed as the empty string.  None of the three responses
    carries the fallback sentence. *)
Lemma success_without_answer_text :
  ok not_json_reply = true ∧ ok number_reply = true ∧ ok empty_text_reply = true
  ∧ (∃ r, CompletionCall r
            ∈ snd (POST (world_with (answering not_json_reply) (body_of hi))))
  ∧ fst (POST (world_with (answering not_json_reply) (body_of hi)))
    = NextResponse_json
        (JObj [ (lit "error", JStr (lit "Server error"));
                (lit "details",
                 JStr (lit "Unexpected token '<' is not valid JSON")) ])
        (Some 500%nat) corsHeaders
  ∧ status (fst (POST (world_with (answering not_json_reply) (body_of hi))))
    = 500%nat
  ∧ (∃ r, CompletionCall r
            ∈ snd (POST (world_with (answering number_reply) (body_of hi))))
  ∧ fst (POST (world_with (answering number_reply) (body_of hi)))
    = NextResponse_json (JObj [ (lit "response", JNum (lit "7")) ])
        None corsHeaders
  ∧ (∃ r, CompletionCall r
            ∈ snd (POST (world_with (answering empty_text_reply) (body_of hi))))
  ∧ fst (POST (world_with (answering empty_text_reply) (body_of hi)))
    = NextResponse_json (JObj [ (lit "response", JStr []) ]) None corsHeaders
  ∧ JNum (lit "7") ≠ JStr (lit "I don't know based on my portfolio content.")
  ∧ JStr [] ≠ JStr (lit "I don't know based on my portfolio content.").
Proof.
  split_and!; try reflexivity; try discriminate.
  - eexists. apply (list_elem_of_lookup_2 _ 2%nat). vm_compute. reflexivity.
  - eexists. apply (list_elem_of_lookup_2 _ 2%nat). vm_compute. reflexivity.
  - eexists. apply (list_elem_of_lookup_2 _ 2%nat). vm_compute. reflexivity.
Qed.

(** C7: every response of [POST] carries exactly the three cross-origin
    headers (any origin; POST and OPTIONS; Content-Type) and has status
    200, 400 or 500; [OPTIONS] answers 204 with the same headers and no
    body. *)
Theorem cross_origin_headers (w : world) :
  headers (fst (POST w)) = corsHeaders
  ∧ (status (fst (POST w)) = 200 ∨ status (fst (POST w)) = 400
     ∨ status (fst (POST w)) = 500)%nat
  ∧ OPTIONS = Response 204 corsHeaders None
  ∧ corsHeaders =
      [ (lit "Access-Control-Allow-Origin", lit "*");
        (lit "Access-Control-Allow-Methods", lit "POST, OPTIONS");
        (lit "Access-Control-Allow-Headers", lit "Content-Type") ].
Proof.
  split_and!; try done; unfold POST, try_catch;
    destruct (POST_try w []) as [[r|e] log] eqn:E; cbn [fst]; auto;
    apply POST_try_returns in E as [? ?]; auto.
Qed.

(** C10, as amended: a body that is not valid JSON gets 500 with the
    error Server error from the catch clause; so does a conversation
    history that is present, not null and not an array, once the request
    has reached the prompt section (valid message, configuration present,
    both reads without error). No completion call is made in either
    case. *)
Theorem unexpected_input_is_server_error (w : world) :
  (∃ e, req_json w = Rejected e)
  ∨ (∃ message h, reaches_prompt w message (Some h)
                  ∧ h ≠ JNull ∧ ∀ items, h ≠ JArr items) →
  ∃ details,
    fst (POST w) =
      NextResponse_json (error_body (lit "Server error") (Some details))
        (Some 500%nat) corsHeaders
    ∧ status (fst (POST w)) = 500%nat
    ∧ ∀ r, CompletionCall r ∉ snd (POST w).
Proof.
  intros [[e He]|(message & h & Hreach & Hnull & Harr)].
  - eexists.
    unfold POST, try_catch, POST_try. run_handler. rewrite He. cbn [fst snd].
    split_and!; try done. intros r Hr. by apply elem_of_nil in Hr.
  - destruct Hreach as (b & Hb & Hmsg & Hne & Hh & Hu & Hk & Hg & He & Hs).
    rewrite (POST_validated w b message) by done.
    unfold try_catch. rewrite retrieve_run, He, Hs, prompt_and_complete_run, Hh.
    assert (∃ t, history (Some h) = inl t) as [t ->].
    { destruct h; try done; cbn; eauto. by destruct (Harr items). }
    eexists. cbn [fst snd]. split_and!; try done.
    intros r Hr. set_unfold in Hr. by destruct_or?.
Qed.

Lemma unexpected_input_is_server_error_witness :
  ∃ details,
    fst (POST (plain_world (body_of (hi ++ [ (lit "conversationHistory",
                                              JNum (lit "5")) ]))))
    = NextResponse_json (error_body (lit "Server error") (Some details))
        (Some 500%nat) corsHeaders
    ∧ status (fst (POST (plain_world
               (body_of (hi ++ [ (lit "conversationHistory", JNum (lit "5")) ])))))
      = 500%nat
    ∧ ∀ r, CompletionCall r ∉
             snd (POST (plain_world
                    (body_of (hi ++ [ (lit "conversationHistory",
                                       JNum (lit "5")) ])))).
Proof.
  apply (unexpected_input_is_server_error
           (plain_world (body_of (hi ++ [ (lit "conversationHistory",
                                           JNum (lit "5")) ])))).
  right. exists (lit "hi"), (JNum (lit "5")). split; [|split].
  - eexists. split; [reflexivity|]. split; [reflexivity|].
    split; [discriminate|]. repeat (split; [reflexivity|]). reflexivity.
  - discriminate.
  - intros items. discriminate.
Defined.

(** C10 as stated fails: a history that is a number gets 400 when the
    message is missing, and a history that is null is read as no history. *)
Lemma history_is_not_always_read :
  get (JObj [ (lit "conversationHistory", JNum (lit "5")) ])
      (lit "conversationHistory") = Some (JNum (lit "5"))
  ∧ status (fst (POST (plain_world
               (body_of [ (lit "conversationHistory", JNum (lit "5")) ])))) = 400%nat
  ∧ get (JObj (hi ++ [ (lit "conversationHistory", JNull) ]))
        (lit "conversationHistory") = Some JNull
  ∧ status (fst (POST (plain_world
               (body_of (hi ++ [ (lit "conversationHistory", JNull) ]))))) = 200%nat.
Proof. by vm_compute. Qed.

End handler.

(** ** The two handlers *)

Section stages.

Lemma same_key r : Part000.key r = Route.key r.
Proof. reflexivity. Qed.

Lemma same_filter_seen seen rows :
  Part000.filter_seen seen rows = Route.filter_seen seen rows.
Proof.
  revert seen. induction rows as [|r rows IH]; intros seen; [done|].
  cbn [Part000.filter_seen Route.filter_seen].
  rewrite same_key, !IH. done.
Qed.

Lemma same_merge s e : Part000.merge s e = Route.merge s e.
Proof. unfold Part000.merge, Route.merge. by rewrite same_filter_seen. Qed.

Lemma same_source_block idx r : Part000.source_block idx r = Route.source_block idx r.
Proof. reflexivity. Qed.

Lemma same_context d : Part000.context d = Route.context d.
Proof.
  unfold Part000.context, Route.context.
  by rewrite (imap_ext Part000.source_block Route.source_block)
    by (intros; apply same_source_block).
Qed.

Lemma same_history_line m : Part000.history_line m = Route.history_line m.
Proof. reflexivity. Qed.

Lemma map_throwing_ext {A B} (f g : A → type_error + B) xs :
  (∀ x, f x = g x) → map_throwing f xs = map_throwing g xs.
Proof.
  intros Hfg. induction xs as [|x xs IH]; [done|].
  cbn [map_throwing]. by rewrite Hfg, IH.
Qed.

Lemma same_history h : Part000.history h = Route.history h.
Proof.
  unfold Part000.history, Route.history.
  destruct h as [[| |repr|s|items|members]|];
    [done|done|done|done| |done|done].
  by rewrite (map_throwing_ext _ _ (slice_last 6 items) same_history_line).
Qed.

Lemma same_user_content d c h m :
  Part000.user_content d c h m = Route.user_content d c h m.
Proof. reflexivity. Qed.

Lemma same_answer out : Part000.answer out = Route.answer out.
Proof. reflexivity. Qed.

Lemma same_queries q :
  Part000.essentialsQuery = Route.essentialsQuery
  ∧ Part000.searchQuery q = Route.searchQuery q.
Proof. split; reflexivity. Qed.

Lemma same_preflight :
  Part000.corsHeaders = Route.corsHeaders ∧ Part000.OPTIONS = Route.OPTIONS.
Proof. split; reflexivity. Qed.

Lemma same_POST_catch e : Part000.POST_catch e = Route.POST_catch e.
Proof. reflexivity. Qed.

(** What the two handlers set differently. *)
Lemma different_config :
  Route.max_tokens = 300%nat ∧ Part000.max_tokens = 120%nat
  ∧ Route.system ≠ Part000.system.
Proof.
  split; [done|]. split; [done|].
  intros H. apply (f_equal length) in H. vm_compute in H. discriminate.
Qed.

(** The two completion requests differ in the blanked fields only. *)
Lemma completion_erased g u :
  erase_config (Route.completion g
                  [PromptMessage (lit "system") Route.system;
                   PromptMessage (lit "user") u])
  = erase_config (Part000.completion g
                    [PromptMessage (lit "system") Part000.system;
                     PromptMessage (lit "user") u]).
Proof.
  unfold erase_config, Route.completion, Part000.completion.
  cbn [c_url c_method c_content_type c_authorization c_model c_messages
       c_temperature map role].
  rewrite !decide_True by done. rewrite !decide_False by done. done.
Qed.

End stages.

Section duplicate.
Context (w : world).
Hypothesis Hfetch :
  ∀ r r', erase_config r = erase_config r' → fetch w r = fetch w r'.

Lemma same_prompt_and_complete g m h d log1 log2 :
  erase_call <$> log1 = erase_call <$> log2 →
  same_run (Route.prompt_and_complete w g m h d log1)
           (Part000.prompt_and_complete w g m h d log2).
Proof.
  intros Hlog.
  unfold Part000.prompt_and_complete.
  rewrite same_history, same_context.
  destruct same_preflight as [-> _].
  unfold Route.prompt_and_complete. run_handler.
  destruct (Route.history h) as [t|lines]; [done|].
  change Part000.user_content with Route.user_content.
  pose proof (completion_erased g (Route.user_content d (Route.context d) lines m))
    as Herased.
  rewrite <- (Hfetch _ _ Herased).
  assert (erase_call <$> (log1 ++ [CompletionCall (Route.completion g
               [PromptMessage (lit "system") Route.system;
                PromptMessage (lit "user")
                  (Route.user_content d (Route.context d) lines m)])])
          = erase_call <$> (log2 ++ [CompletionCall (Part000.completion g
               [PromptMessage (lit "system") Part000.system;
                PromptMessage (lit "user")
                  (Route.user_content d (Route.context d) lines m)])]))
    as Hlog'.
  { rewrite !fmap_app, Hlog. cbn [fmap list_fmap erase_call]. by rewrite Herased. }
  match goal with |- context [fetch w ?r] => destruct (fetch w r) as [resp|e] end.
  - destruct (ok resp); cbn [negb];
      [destruct (resp_json resp)|]; (split; [reflexivity|]); cbn [snd]; exact Hlog'.
  - split; [reflexivity|]. cbn [snd]. exact Hlog'.
Qed.

Lemma same_retrieve u k g m h :
  same_run (Route.retrieve w u k g m h []) (Part000.retrieve w u k g m h []).
Proof.
  unfold Part000.retrieve.
  destruct (same_queries (trim m)) as [-> ->].
  destruct same_preflight as [-> _].
  rewrite same_merge.
  unfold Route.retrieve. run_handler.
  destruct (read_error (store w u k Route.essentialsQuery)); [done|].
  destruct (read_error (store w u k (Route.searchQuery (trim m)))); [done|].
  by apply same_prompt_and_complete.
Qed.

Lemma same_POST : same_run (Route.POST w) (Part000.POST w).
Proof.
  unfold Part000.POST, Part000.POST_try.
  destruct same_preflight as [-> _].
  unfold Route.POST, try_catch, Route.POST_try. run_handler.
  destruct (req_json w) as [b|e]; [|done].
  destruct (destructure b) as [t|[message hist]]; [done|].
  destruct message as [[| | |[|c message]| |]|]; try done.
  repeat (match goal with |- context [if ?c then _ else _] => destruct c end; try done).
  pose proof (same_retrieve (or_empty (NEXT_PUBLIC_SUPABASE_URL w))
                (or_empty (NEXT_PUBLIC_SUPABASE_ANON_KEY w))
                (or_empty (GROQ_API_KEY w)) (c :: message) hist) as [H1 H2].
  destruct (Route.retrieve _ _ _ _ _ _ _) as [[r1|e1] l1],
           (Part000.retrieve _ _ _ _ _ _ _) as [[r2|e2] l2];
    cbn [fst snd] in *; simplify_eq; done.
Qed.

End duplicate.

(** C8: the two handlers differ in the text of the system message and in
    the token budget (300 against 120) and in nothing else. Every stage is
    pointwise the same function, and for a completion service whose
    answer does not depend on those two fields the responses are equal;
    the calls issued are equal once the two fields are blanked. *)
Theorem handlers_agree_up_to_config (w : world) :
  (∀ r r', erase_config r = erase_config r' → fetch w r = fetch w r') →
  fst (Route.POST w) = fst (Part000.POST w)
  ∧ erase_call <$> snd (Route.POST w) = erase_call <$> snd (Part000.POST w)
  ∧ Route.OPTIONS = Part000.OPTIONS
  ∧ Route.essentialsQuery = Part000.essentialsQuery
  ∧ (∀ q, Route.searchQuery q = Part000.searchQuery q)
  ∧ (∀ s e, Route.merge s e = Part000.merge s e)
  ∧ (∀ d, Route.context d = Part000.context d)
  ∧ (∀ h, Route.history h = Part000.history h)
  ∧ (∀ d c h m, Route.user_content d c h m = Part000.user_content d c h m)
  ∧ (∀ out, Route.answer out = Part000.answer out)
  ∧ (∀ e, Route.POST_catch e = Part000.POST_catch e)
  ∧ (∀ g u,
       erase_config (Route.completion g
                       [PromptMessage (lit "system") Route.system;
                        PromptMessage (lit "user") u])
       = erase_config (Part000.completion g
                         [PromptMessage (lit "system") Part000.system;
                          PromptMessage (lit "user") u]))
  ∧ Route.max_tokens = 300%nat ∧ Part000.max_tokens = 120%nat
  ∧ Route.system ≠ Part000.system.
Proof.
  intros Hfetch. destruct (same_POST w Hfetch) as [Hresponse Hcalls].
  split; [done|]. split; [done|].
  split; [symmetry; apply same_preflight|].
  split; [symmetry; apply (same_queries [])|].
  split; [intros; symmetry; apply same_queries|].
  split; [intros; symmetry; apply same_merge|].
  split; [intros; symmetry; apply same_context|].
  split; [intros; symmetry; apply same_history|].
  split; [intros; symmetry; apply same_user_content|].
  split; [intros; symmetry; apply same_answer|].
  split; [intros; symmetry; apply same_POST_catch|].
  split; [apply completion_erased|].
  apply different_config.
Qed.

Lemma handlers_agree_up_to_config_witness :
  fst (Route.POST (plain_world (body_of hi)))
  = fst (Part000.POST (plain_world (body_of hi)))
  ∧ erase_call <$> snd (Route.POST (plain_world (body_of hi)))
    = erase_call <$> snd (Part000.POST (plain_world (body_of hi))).
Proof.
  destruct (handlers_agree_up_to_config (plain_world (body_of hi)))
    as (Hresponse & Hcalls & _).
  - intros r r' _. reflexivity.
  - split; [exact Hresponse|exact Hcalls].
Defined.

(** ** More on the request handler *)

Section exits.
Import Route.

(** The run of a request that makes the completion call [r]. *)
Lemma POST_completion_call w r :
  CompletionCall r ∈ snd (POST w) →
  POST w =
    (match fetch w r with
     | Rejected e => POST_catch e
     | Fulfilled resp =>
       if ok resp
       then match resp_json resp with
            | Rejected e => POST_catch e
            | Fulfilled out =>
              NextResponse_json (JObj [ (lit "response", answer out) ]) None corsHeaders
            end
       else NextResponse_json
              (error_body (lit "Groq request failed") (Some (resp_text resp)))
              (Some 500%nat) corsHeaders
     end,
     [ StoreRead (or_empty (NEXT_PUBLIC_SUPABASE_URL w))
         (or_empty (NEXT_PUBLIC_SUPABASE_ANON_KEY w)) essentialsQuery;
       StoreRead (or_empty (NEXT_PUBLIC_SUPABASE_URL w))
         (or_empty (NEXT_PUBLIC_SUPABASE_ANON_KEY w))
         (searchQuery
            (trim (match req_json w with
                   | Fulfilled b =>
                     match get b (lit "message") with
                     | Some (JStr m) => m
                     | _ => []
                     end
                   | Rejected _ => []
                   end)));
       CompletionCall r ]).
Proof.
  intros Hin.
  destruct (POST_issues_calls w) as (b & message & Hb & Hmsg & Hne & HP).
  { intros Hnil. rewrite Hnil in Hin. by apply elem_of_nil in Hin. }
  rewrite (POST_calls w b message HP), retrieve_calls in Hin.
  rewrite HP. unfold try_catch. rewrite retrieve_run, Hb, Hmsg.
  destruct (read_error (store w _ _ essentialsQuery)) as [m1|] eqn:E1;
    [|destruct (read_error (store w _ _ (searchQuery _))) as [m2|] eqn:E2];
    try (set_unfold in Hin; destruct_or?; by simplify_eq).
  rewrite prompt_and_complete_run.
  destruct (history _) as [t|lines];
    [set_unfold in Hin; destruct_or?; by simplify_eq|].
  cbv zeta. set_unfold in Hin. destruct_or?; simplify_eq.
  destruct (fetch w _) as [resp|e]; [|done].
  destruct (ok resp); [|done]. by destruct (resp_json resp).
Qed.

(** X1: with a valid message, a store URL or store key that is unset or
    empty gets 500 with the error Missing Supabase env vars, and nothing
    is called. *)
Theorem missing_supabase_config (w : world) (b : json) (m : jsstring) :
  req_json w = Fulfilled b →
  get b (lit "message") = Some (JStr m) → m ≠ [] →
  truthy (or_empty (NEXT_PUBLIC_SUPABASE_URL w)) = false
  ∨ truthy (or_empty (NEXT_PUBLIC_SUPABASE_ANON_KEY w)) = false →
  POST w = (NextResponse_json (error_body (lit "Missing Supabase env vars") None)
              (Some 500%nat) corsHeaders, []).
Proof.
  intros Hb Hmsg Hne Henv. unfold POST, try_catch, POST_try. run_handler.
  rewrite Hb. destruct b; try done; cbn [destructure]; rewrite Hmsg;
    (destruct m; [done|]);
    destruct Henv as [-> | ->]; cbn [negb orb]; rewrite ?orb_true_r; done.
Qed.

Lemma missing_supabase_config_witness :
  POST (World (body_of hi) None (Some (lit "anon")) (Some (lit "gsk"))
          quiet_store empty_completion (λ _, lit "TypeError"))
  = (NextResponse_json (error_body (lit "Missing Supabase env vars") None)
       (Some 500%nat) corsHeaders, []).
Proof.
  apply (missing_supabase_config _ (JObj hi) (lit "hi")).
  - reflexivity.
  - reflexivity.
  - discriminate.
  - left. reflexivity.
Defined.

(** X2: with a valid message and the store configured, a completion key
    that is unset or empty gets 500 with the error Missing GROQ_API_KEY,
    before any read of the store. *)
Theorem missing_groq_key (w : world) (b : json) (m : jsstring) :
  req_json w = Fulfilled b →
  get b (lit "message") = Some (JStr m) → m ≠ [] →
  truthy (or_empty (NEXT_PUBLIC_SUPABASE_URL w)) = true →
  truthy (or_empty (NEXT_PUBLIC_SUPABASE_ANON_KEY w)) = true →
  truthy (or_empty (GROQ_API_KEY w)) = false →
  POST w = (NextResponse_json (error_body (lit "Missing GROQ_API_KEY") None)
              (Some 500%nat) corsHeaders, []).
Proof.
  intros Hb Hmsg Hne Hu Hk Hg. unfold POST, try_catch, POST_try. run_handler.
  rewrite Hb. destruct b; try done; cbn [destructure]; rewrite Hmsg;
    (destruct m; [done|]); by rewrite Hu, Hk, Hg.
Qed.

Lemma missing_groq_key_witness :
  POST (World (body_of hi) (Some (lit "https://db.example")) (Some (lit "anon"))
          (Some []) quiet_store empty_completion (λ _, lit "TypeError"))
  = (NextResponse_json (error_body (lit "Missing GROQ_API_KEY") None)
       (Some 500%nat) corsHeaders, []).
Proof.
  apply (missing_groq_key _ (JObj hi) (lit "hi")); try reflexivity. discriminate.
Defined.

(** X3: when the completion service answers the handler's call with a
    status that is not a success, the response is 500 with the error Groq
    request failed and the text of that answer as details. *)
Theorem completion_failure (w : world) (r : completion_request) (resp : fetch_response) :
  CompletionCall r ∈ snd (POST w) →
  fetch w r = Fulfilled resp → ok resp = false →
  fst (POST w) =
    NextResponse_json (error_body (lit "Groq request failed") (Some (resp_text resp)))
      (Some 500%nat) corsHeaders.
Proof.
  intros Hin Hfetch Hok. rewrite (POST_completion_call w r Hin).
  by rewrite Hfetch, Hok.
Qed.

(** X4: when the completion call is rejected, or its success body is not
    JSON, the catch clause answers 500 with the error Server error and the
    message of the rejection as details. *)
Theorem completion_rejection (w : world) (r : completion_request) (e : error) :
  CompletionCall r ∈ snd (POST w) →
  fetch w r = Rejected e
  ∨ (∃ resp, fetch w r = Fulfilled resp ∧ ok resp = true ∧ resp_json resp = Rejected e) →
  fst (POST w) =
    NextResponse_json (error_body (lit "Server error") (Some (message e)))
      (Some 500%nat) corsHeaders.
Proof.
  intros Hin Hfetch. rewrite (POST_completion_call w r Hin). cbn [fst snd].
  destruct Hfetch as [-> | (resp & -> & -> & ->)]; done.
Qed.

(** X5: when the first choice of a success body has a message content
    that is not null, the response is 200 and carries that content
    unchanged. *)
Theorem answer_relayed (w : world) (r : completion_request) (resp : fetch_response)
    (out v : json) :
  CompletionCall r ∈ snd (POST w) →
  fetch w r = Fulfilled resp → ok resp = true → resp_json resp = Fulfilled out →
  first_choice_content out = Some v → v ≠ JNull →
  fst (POST w) = NextResponse_json (JObj [ (lit "response", v) ]) None corsHeaders.
Proof.
  intros Hin Hfetch Hok Hjson Hv Hnull. rewrite (POST_completion_call w r Hin).
  rewrite Hfetch, Hok, Hjson. cbn [fst]. unfold answer. rewrite Hv. by destruct v.
Qed.


(** X6: a run calls nothing, or it reads the store twice (the essentials,
    then the search for the trimmed message, both with the configured URL
    and key) and after the two reads makes at most one completion call,
    whose user message ends with the message as it was sent, untrimmed. *)
Theorem call_discipline (w : world) :
  snd (POST w) = []
  ∨ ∃ b m rest,
      req_json w = Fulfilled b ∧ get b (lit "message") = Some (JStr m)
      ∧ snd (POST w) =
          StoreRead (or_empty (NEXT_PUBLIC_SUPABASE_URL w))
            (or_empty (NEXT_PUBLIC_SUPABASE_ANON_KEY w)) essentialsQuery
          :: StoreRead (or_empty (NEXT_PUBLIC_SUPABASE_URL w))
               (or_empty (NEXT_PUBLIC_SUPABASE_ANON_KEY w)) (searchQuery (trim m))
          :: rest
      ∧ (rest = []
         ∨ ∃ preamble,
             rest = [ CompletionCall
                        (completion (or_empty (GROQ_API_KEY w))
                           [ PromptMessage (lit "system") system;
                             PromptMessage (lit "user")
                               (preamble ++ lit "User question:" ++ nl ++ m) ]) ]).
Proof.
  destruct (decide (snd (POST w) = [])) as [Hnil|Hcalls]; [by left|right].
  destruct (POST_issues_calls w Hcalls) as (b & m & Hb & Hmsg & Hne & HP).
  exists b, m. rewrite (POST_calls w b m HP), retrieve_calls. cbn [app].
  eexists. split; [done|]. split; [done|]. split; [reflexivity|].
  destruct (read_error (store w _ _ essentialsQuery)); [by left|].
  destruct (read_error (store w _ _ (searchQuery _))); [by left|].
  destruct (history _) as [t|lines]; [by left|right].
  unfold user_content. rewrite app_assoc. by eexists.
Qed.

Lemma answer_not_null out : answer out ≠ JNull.
Proof. unfold answer. by destruct (first_choice_content out) as [[]|]. Qed.

Lemma prompt_and_complete_body w g m h d log r log' :
  prompt_and_complete w g m h d log = (Fulfilled r, log') →
  (status r = 200%nat ∧ ∃ v, body r = Some (JObj [ (lit "response", v) ]) ∧ v ≠ JNull)
  ∨ (status r = 500%nat ∧ ∃ err details, body r = Some (error_body err (Some details))).
Proof.
  rewrite prompt_and_complete_run.
  destruct (history h); [done|]. cbv zeta.
  destruct (fetch w _) as [resp|e]; [|done].
  destruct (ok resp); [destruct (resp_json resp) as [out|e]; [|done]|].
  - intros [= <- _]. left. split; [done|]. eexists. split; [done|].
    apply answer_not_null.
  - intros [= <- _]. right. split; [done|]. by eexists _, _.
Qed.

Lemma retrieve_body w u k g m h log r log' :
  retrieve w u k g m h log = (Fulfilled r, log') →
  (status r = 200%nat ∧ ∃ v, body r = Some (JObj [ (lit "response", v) ]) ∧ v ≠ JNull)
  ∨ (status r = 500%nat ∧ ∃ err details, body r = Some (error_body err (Some details))).
Proof.
  unfold retrieve. run_handler.
  repeat case_match;
    try (intros; simplify_eq/=; right; split; [done|]; by eexists _, _).
  apply prompt_and_complete_body.
Qed.

(** A run either stops before any call, with an error envelope, or runs
    the retrieval section. *)
Lemma POST_cases w :
  (snd (POST w) = []
   ∧ (status (fst (POST w)) = 400%nat ∨ status (fst (POST w)) = 500%nat)
   ∧ ∃ err details, body (fst (POST w)) = Some (error_body err details))
  ∨ ∃ b message,
      req_json w = Fulfilled b
      ∧ get b (lit "message") = Some (JStr message) ∧ message ≠ []
      ∧ POST w = try_catch
                   (retrieve w (or_empty (NEXT_PUBLIC_SUPABASE_URL w))
                      (or_empty (NEXT_PUBLIC_SUPABASE_ANON_KEY w))
                      (or_empty (GROQ_API_KEY w)) message
                      (get b (lit "conversationHistory")))
                   POST_catch.
Proof.
  assert (∀ r : response,
            (status r = 400%nat ∨ status r = 500%nat) →
            (∃ err details, body r = Some (error_body err details)) →
            (snd (r, @nil call) = []
             ∧ (status (fst (r, @nil call)) = 400%nat
                ∨ status (fst (r, @nil call)) = 500%nat)
             ∧ ∃ err details, body (fst (r, @nil call)) = Some (error_body err details)))
    as Hstop by done.
  unfold POST, try_catch at 1 2 3 4, POST_try. run_handler.
  destruct (req_json w) as [b|e];
    [|left; apply Hstop; [by right|by eexists _, (Some _)]].
  destruct b; cbn [destructure];
    try (left; apply Hstop; [by right|by eexists _, (Some _)]);
  (match goal with
   | |- context [get ?b (lit "message")] =>
       destruct (get b (lit "message")) as [[| | |[|? ?]| |]|] eqn:E;
         try (left; apply Hstop; [by left|by eexists _, None])
   end);
  repeat (match goal with
          | |- context [if ?c then _ else _] =>
              destruct c; try (left; apply Hstop; [by right|by eexists _, None])
          end);
  right; eexists _, _; (split; [done|]); (split; [done|]); (split; [done|]);
  done.
Qed.

Lemma POST_envelope w :
  (status (fst (POST w)) = 200%nat
   ∧ ∃ v, body (fst (POST w)) = Some (JObj [ (lit "response", v) ]) ∧ v ≠ JNull)
  ∨ ((status (fst (POST w)) = 400%nat ∨ status (fst (POST w)) = 500%nat)
     ∧ ∃ err details, body (fst (POST w)) = Some (error_body err details)).
Proof.
  destruct (POST_cases w) as [(_ & Hstatus & Hbody)|(b & m & Hb & Hmsg & Hne & HP)];
    [by right|].
  rewrite HP. unfold try_catch.
  destruct (retrieve _ _ _ _ _ _ _) as [[r|e] log] eqn:E; cbn [fst].
  - apply retrieve_body in E as [E|[E1 (err & details & E2)]]; [by left|right].
    split; [by right|]. by eexists _, _.
  - right. split; [by right|]. by eexists _, (Some _).
Qed.

(** X7: every response is an envelope: status 200 with a body holding
    only a [response] member that is not null, or status 400 or 500 with a
    body holding an [error] string and at most a [details] string. *)
Theorem response_envelope (w : world) :
  (status (fst (POST w)) = 200%nat
   ∧ ∃ v, body (fst (POST w)) = Some (JObj [ (lit "response", v) ]) ∧ v ≠ JNull)
  ∨ ((status (fst (POST w)) = 400%nat ∨ status (fst (POST w)) = 500%nat)
     ∧ ∃ err details, body (fst (POST w)) = Some (error_body err details)).
Proof. apply POST_envelope. Qed.

End exits.

(** ** More on the retrieval merger *)

Section merger_more.
Import Route.

Lemma filter_seen_app seen a b :
  filter_seen seen (a ++ b)
  = filter_seen seen a ++ filter_seen (list_to_set (key <$> a) ∪ seen) b.
Proof.
  revert seen. induction a as [|r a IH]; intros seen; cbn [app filter_seen].
  - f_equal. set_solver.
  - destruct (decide (key r ∈ seen)) as [Hr|Hr].
    + rewrite IH. do 2 f_equal. set_solver.
    + rewrite IH. cbn [app]. do 3 f_equal. set_solver.
Qed.

Lemma filter_seen_nodup seen rows :
  NoDup (key <$> rows) → (∀ r, r ∈ rows → key r ∉ seen) →
  filter_seen seen rows = rows.
Proof.
  revert seen. induction rows as [|r rows IH]; intros seen Hnd Hseen; [done|].
  rewrite fmap_cons in Hnd. apply NoDup_cons in Hnd as [Hr Hnd].
  cbn [filter_seen]. rewrite decide_False by (apply Hseen; set_solver).
  f_equal. apply IH; [done|].
  intros x Hx. assert (key x ≠ key r).
  { intros Heq. apply Hr. rewrite <- Heq. by apply list_elem_of_fmap_2. }
  assert (key x ∉ seen) by (apply Hseen; set_solver). set_solver.
Qed.

Lemma filter_seen_keys_nodup seen rows : NoDup (key <$> filter_seen seen rows).
Proof.
  revert seen. induction rows as [|r rows IH]; intros seen; cbn [filter_seen].
  - constructor.
  - destruct (decide (key r ∈ seen)) as [Hr|Hr]; [apply IH|].
    rewrite fmap_cons. apply NoDup_cons. split; [|apply IH].
    intros (x & Hx & Hin)%list_elem_of_fmap.
    apply filter_seen_fresh in Hin. set_solver.
Qed.

Lemma merge_keys_nodup s e : NoDup (key <$> merge s e).
Proof.
  unfold merge. rewrite fmap_take.
  eapply sublist_NoDup; [apply filter_seen_keys_nodup|apply sublist_take].
Qed.

(** X8: no two rows of the merger's output have the same key. *)
Theorem merge_keys_distinct (searchData essentialsData : option (list row)) :
  NoDup (key <$> merge searchData essentialsData)
  ∧ ∀ i j ri rj,
      merge searchData essentialsData !! i = Some ri →
      merge searchData essentialsData !! j = Some rj →
      key ri = key rj → i = j.
Proof.
  split; [apply merge_keys_nodup|].
  intros i j ri rj Hi Hj Hkey.
  eapply (NoDup_lookup (key <$> merge searchData essentialsData));
    [apply merge_keys_nodup| |].
  - rewrite list_lookup_fmap, Hi. done.
  - rewrite list_lookup_fmap, Hj. cbn. by rewrite Hkey.
Qed.

(** X9: the essentials never displace a search result: what the merger
    gives for the search results alone is a prefix of what it gives for
    the search results and the essentials. *)
Theorem merge_search_first (searchData essentialsData : option (list row)) :
  merge searchData None `prefix_of` merge searchData essentialsData.
Proof.
  unfold merge. cbn [default]. rewrite app_nil_r, filter_seen_app, take_app.
  by eexists.
Qed.

(** X10: when the rows of both reads have pairwise different keys and
    are at most sixteen together, the merger returns all of them, search
    results first, in order. *)
Theorem merge_keeps_distinct_rows (searchData essentialsData : list row) :
  NoDup (key <$> (searchData ++ essentialsData)) →
  (length searchData + length essentialsData ≤ 16)%nat →
  merge (Some searchData) (Some essentialsData) = searchData ++ essentialsData.
Proof.
  intros Hnd Hlen. unfold merge. cbn [default].
  rewrite filter_seen_nodup by (done || set_solver).
  apply take_ge. rewrite length_app. lia.
Qed.

(** X11: merging the merger's output again changes nothing. *)
Theorem merge_idempotent (searchData essentialsData : option (list row)) :
  merge (Some (merge searchData essentialsData)) None
  = merge searchData essentialsData.
Proof.
  unfold merge at 1. cbn [default]. rewrite app_nil_r.
  rewrite filter_seen_nodup by (apply merge_keys_nodup || set_solver).
  apply take_ge. unfold merge. rewrite length_take. lia.
Qed.

End merger_more.

(** ** More on trimming and the context formatter *)

Section trimming.

(** What [trimStart] returns is empty or starts with a code unit that is
    not white space. *)
Lemma trimStart_head s :
  trimStart s = [] ∨ ∃ c r, trimStart s = c :: r ∧ is_ws c = false.
Proof.
  induction s as [|c s IH]; [by left|]. cbn [trimStart].
  destruct (is_ws c) eqn:E; [done|]. right. by exists c, s.
Qed.

Lemma trimStart_keeps_end a d :
  is_ws d = false → ∃ x, trimStart (a ++ [d]) = x ++ [d].
Proof.
  intros Hd. induction a as [|c a [x IH]]; cbn [app trimStart].
  - rewrite Hd. by exists [].
  - destruct (is_ws c); [by exists x|]. by exists (c :: a).
Qed.

Lemma trimEnd_snoc x c : is_ws c = false → trimEnd (x ++ [c]) = x ++ [c].
Proof.
  intros Hc. unfold trimEnd. rewrite rev_app_distr. cbn [rev app trimStart].
  rewrite Hc. cbn [rev]. by rewrite rev_involutive.
Qed.

Lemma trimEnd_snoc_ws x c : is_ws c = true → trimEnd (x ++ [c]) = trimEnd x.
Proof.
  intros Hc. unfold trimEnd. rewrite rev_app_distr. cbn [rev app trimStart].
  by rewrite Hc.
Qed.

(** What [trim] returns is empty or starts and ends with code units that
    are not white space. *)
Lemma trim_ends s :
  trim s = []
  ∨ ∃ c y d, trim s = c :: y ∧ is_ws c = false
             ∧ (∃ z, trim s = z ++ [d]) ∧ is_ws d = false.
Proof.
  unfold trim, trimEnd.
  destruct (trimStart_head s) as [->|(c & r & -> & Hc)]; [by left|].
  cbn [rev].
  destruct (trimStart_keeps_end (rev r) c Hc) as [x Hx].
  destruct (trimStart_head (rev r ++ [c])) as [Hnil|(d & t & Ht & Hd)].
  { rewrite Hx in Hnil. by destruct x. }
  right. rewrite Hx, rev_app_distr. cbn [rev app].
  exists c, (rev x), d. split; [done|]. split; [done|]. split; [|done].
  exists (rev t). rewrite Hx in Ht. apply (f_equal (@rev _)) in Ht.
  by rewrite rev_app_distr in Ht.
Qed.

Lemma trim_fixed c y d z :
  is_ws c = false → is_ws d = false → c :: y = z ++ [d] → trim (c :: y) = c :: y.
Proof.
  intros Hc Hd Heq. unfold trim. cbn [trimStart]. rewrite Hc, Heq.
  by apply trimEnd_snoc.
Qed.

Lemma trim_idempotent s : trim (trim s) = trim s.
Proof.
  destruct (trim_ends s) as [->|(c & y & d & Hs & Hc & [z Hz] & Hd)]; [done|].
  rewrite Hs. eapply trim_fixed; [done|done|]. by rewrite <- Hs.
Qed.

End trimming.

Section formatter_more.
Import Route.

Lemma source_block_unfolded idx r :
  source_block idx r
  = lit "Source " ++ nat_to_string (idx + 1) ++ lit " ["
    ++ trim (or_empty (type r))
    ++ (if truthy (trim (or_empty (title r)))
        then lit " | " ++ trim (or_empty (title r)) else [])
    ++ (if truthy (trim (or_empty (tags r)))
        then lit " | tags: " ++ trim (or_empty (tags r)) else [])
    ++ lit "]"
    ++ (if truthy (trim (or_empty (content r)))
        then nl ++ trim (or_empty (content r)) else []).
Proof.
  unfold source_block. cbv zeta.
  set (P := nat_to_string (idx + 1) ++ lit " [" ++ trim (or_empty (type r))
            ++ (if truthy (trim (or_empty (title r)))
                then lit " | " ++ trim (or_empty (title r)) else [])
            ++ (if truthy (trim (or_empty (tags r)))
                then lit " | tags: " ++ trim (or_empty (tags r)) else [])).
  assert (∀ co,
    (co = [] ∨ ∃ z d, co = z ++ [d] ∧ is_ws d = false) →
    trim (lit "Source " ++ P ++ lit "]" ++ nl ++ co)
    = lit "Source " ++ P ++ lit "]" ++ (if truthy co then nl ++ co else [])) as Hshape.
  { intros co Hco. unfold trim.
    change (lit "Source ") with (83 :: lit "ource "). cbn [app trimStart].
    change (is_ws 83) with false. cbv iota.
    change (lit "]") with [93]. unfold nl.
    destruct Hco as [->|(z & d & -> & Hd)].
    - cbn [truthy]. rewrite app_nil_r.
      rewrite (app_comm_cons _ _ 83), !app_assoc.
      rewrite trimEnd_snoc_ws by done. rewrite trimEnd_snoc by done.
      rewrite <- !app_assoc. done.
    - assert (truthy (z ++ [d]) = true) as -> by (by destruct z).
      rewrite (app_comm_cons _ _ 83), !app_assoc.
      rewrite trimEnd_snoc by done. rewrite <- !app_assoc. done. }
  assert (trim (or_empty (content r)) = []
          ∨ ∃ z d, trim (or_empty (content r)) = z ++ [d] ∧ is_ws d = false) as Hco.
  { destruct (trim_ends (or_empty (content r)))
      as [->|(c & y & d & Hs & Hc & [z Hz] & Hd)]; [by left|right]. by exists z, d. }
  apply Hshape in Hco. unfold P in Hco. rewrite <- !app_assoc in Hco. exact Hco.
Qed.

(** X12: the block of a row is the header [Source n [type | title | tags:
    ...]] with the 1-based position, the title and the tags parts present
    only when they are not blank, followed by a line feed and the trimmed
    content; the outer [trim] only removes that line feed when the content
    is blank. *)
Theorem source_block_shape (idx : nat) (r : row) :
  source_block idx r
  = lit "Source " ++ nat_to_string (idx + 1) ++ lit " ["
    ++ trim (or_empty (type r))
    ++ (if truthy (trim (or_empty (title r)))
        then lit " | " ++ trim (or_empty (title r)) else [])
    ++ (if truthy (trim (or_empty (tags r)))
        then lit " | tags: " ++ trim (or_empty (tags r)) else [])
    ++ lit "]"
    ++ (if truthy (trim (or_empty (content r)))
        then nl ++ trim (or_empty (content r)) else []).
Proof. apply source_block_unfolded. Qed.

End formatter_more.

Section formatter_more2.
Import Route.

Lemma source_block_starts idx r : ∃ rest, source_block idx r = 83 :: rest.
Proof. rewrite source_block_unfolded. by eexists. Qed.

(** X13: the context is the empty string exactly when no row was
    retrieved. *)
Theorem context_empty_iff (data : list row) : context data = [] ↔ data = [].
Proof.
  split; [|by intros ->].
  destruct data as [|r data]; [done|]. unfold context. cbn [imap join].
  destruct (source_block_starts 0 r) as [rest ->].
  by destruct (imap _ data).
Qed.

End formatter_more2.

(** ** The conversation history and the search filter *)

Section prompt_more.
Import Route.

Lemma slice_last_app {A} (old recent : list A) n :
  length recent = n → slice_last n (old ++ recent) = recent.
Proof.
  intros <-. unfold slice_last. rewrite length_app.
  replace (length old + length recent - length recent)%nat with (length old) by lia.
  by rewrite drop_app_length.
Qed.

(** X14: only the last six entries of the conversation history are read:
    whatever stands before them, even an entry that would throw, changes
    nothing. *)
Theorem history_reads_last_six (old recent : list json) :
  length recent = 6%nat →
  history (Some (JArr (old ++ recent))) = history (Some (JArr recent)).
Proof.
  intros Hlen. unfold history.
  rewrite (slice_last_app old recent 6 Hlen).
  pose proof (slice_last_app [] recent 6 Hlen) as Hall. cbn [app] in Hall.
  by rewrite Hall.
Qed.

Lemma history_line_turn t : history_line (turn t) = inr (turn_line t).
Proof. reflexivity. Qed.

Lemma map_throwing_turns ts :
  map_throwing history_line (turn <$> ts) = inr (turn_line <$> ts).
Proof.
  induction ts as [|t ts IH]; [done|].
  rewrite !fmap_cons. cbn [map_throwing]. by rewrite history_line_turn, IH.
Qed.

Lemma history_of_turns_aux ts :
  history (Some (JArr (turn <$> ts))) = inr (join nl (turn_line <$> slice_last 6 ts)).
Proof.
  unfold history, slice_last.
  rewrite length_fmap, <- fmap_drop. by rewrite map_throwing_turns.
Qed.

(** X15: a history whose entries have a string role and a string content
    is rendered, without error, as one line [role: content] for each of
    its last six entries, joined by line feeds. *)
Theorem history_of_turns (turns : list (jsstring * jsstring)) :
  history (Some (JArr (turn <$> turns)))
  = inr (join nl (turn_line <$> slice_last 6 turns)).
Proof. apply history_of_turns_aux. Qed.

Lemma commas_app a b : commas (a ++ b) = (commas a + commas b)%nat.
Proof. unfold commas. by rewrite filter_app, length_app. Qed.

(** X16: the message is spliced into the filter expression as it is: the
    expression has four separating commas plus five for every comma of the
    trimmed message, so a comma in the message adds terms to the filter. *)
Theorem search_filter_commas (q : jsstring) :
  commas (or_filters (searchQuery q)) = (4 + 5 * commas q)%nat.
Proof.
  unfold or_filters, searchQuery. cbn [q_filter join].
  rewrite !commas_app.
  change (commas (lit ",")) with 1%nat.
  change (commas (lit "title.ilike.%")) with 0%nat.
  change (commas (lit "content.ilike.%")) with 0%nat.
  change (commas (lit "tags.ilike.%")) with 0%nat.
  change (commas (lit "project.ilike.%")) with 0%nat.
  change (commas (lit "type.ilike.%")) with 0%nat.
  change (commas (lit "%")) with 0%nat.
  lia.
Qed.

End prompt_more.

(** ** The chat widget *)

Section trimming_more.

Lemma trimStart_nil_iff s : trimStart s = [] ↔ Forall (λ c, is_ws c = true) s.
Proof.
  induction s as [|c s IH]; [by split; [constructor|]|].
  cbn [trimStart]. destruct (is_ws c) eqn:E.
  - rewrite IH. split; [by constructor|]. by intros [_ ?]%Forall_cons.
  - split; [done|]. intros [? _]%Forall_cons. congruence.
Qed.

(** [trim] returns the empty string on white space only. *)
Lemma trim_nil_iff s : trim s = [] ↔ Forall (λ c, is_ws c = true) s.
Proof.
  rewrite <- trimStart_nil_iff. unfold trim, trimEnd. split; [|by intros ->].
  destruct (trimStart_head s) as [Hnil|(c & r & Hs & Hc)]; [done|].
  rewrite Hs. cbn [rev].
  destruct (trimStart_keeps_end (rev r) c Hc) as [x ->].
  intros H. apply (f_equal (@length _)) in H.
  rewrite length_rev, length_app in H. cbn in H. lia.
Qed.

End trimming_more.

Section widget.
Import AIChat.

Lemma truthy_true_iff s : truthy s = true ↔ s ≠ [].
Proof. by destruct s. Qed.

(** X17: when the input holds white space only, or a request is pending,
    [sendMessage] does nothing (no request, no state change), and the send
    button is disabled. *)
Theorem sendMessage_blank_or_loading (endpoint : jsstring) (st : state)
    (fetch : request → settled result) :
  Forall (λ c, is_ws c = true) (input st) ∨ isLoading st = true →
  sendMessage endpoint st fetch = []
  ∧ run st (sendMessage endpoint st fetch) = st
  ∧ sendDisabled st = true.
Proof.
  intros H.
  assert (sendDisabled st = true) as Hd.
  { unfold sendDisabled. destruct H as [H%trim_nil_iff| ->].
    - by rewrite H.
    - apply orb_true_r. }
  unfold sendMessage. unfold sendDisabled in Hd. by rewrite Hd.
Qed.

(** X18: otherwise one call of [sendMessage] posts exactly one request to
    the endpoint, whose body carries the trimmed input as message and the
    messages so far followed by that message as history; at the end the
    earlier messages are kept, the user message and one assistant message
    are appended in that order, the input is empty and loading is off. *)
Theorem sendMessage_round (endpoint : jsstring) (st : state)
    (fetch : request → settled result) :
  ¬ Forall (λ c, is_ws c = true) (input st) → isLoading st = false →
  ∃ r,
    requests (sendMessage endpoint st fetch) = [r]
    ∧ url r = endpoint
    ∧ body r = JObj [ (lit "message", JStr (trim (input st)));
                      (lit "conversationHistory",
                       JArr (Message_json <$>
                               (messages st
                                ++ [ {| role := user;
                                        content := JStr (trim (input st)) |} ]))) ]
    ∧ run st (sendMessage endpoint st fetch)
      = State (isOpen st)
          (messages st
           ++ [ {| role := user; content := JStr (trim (input st)) |};
                {| role := assistant; content := reply (fetch r) |} ])
          [] false.
Proof.
  intros Hblank Hload. rewrite <- trim_nil_iff in Hblank.
  apply truthy_true_iff in Hblank.
  unfold sendMessage. rewrite Hblank, Hload. cbn [negb orb].
  eexists. split; [reflexivity|]. split; [done|]. split; [done|].
  cbn. by rewrite <- app_assoc.
Qed.

(** X19: the assistant message is never empty: its content is truthy
    whatever the outcome of the request. *)
Theorem reply_is_never_empty (outcome : settled result) :
  truthy_json (reply outcome) = true
  ∧ reply outcome ≠ JStr [] ∧ reply outcome ≠ JNull.
Proof.
  assert (truthy_json (reply outcome) = true) as H.
  { unfold reply. destruct outcome as [res|e]; [|done].
    destruct (res_ok res); [|done]. cbn [negb].
    destruct (res_json res) as [data|e]; [|done]. cbv zeta.
    by destruct (truthy_json (assistantText data)) eqn:E. }
  split; [done|]. split; intros Heq; by rewrite Heq in H.
Qed.

(** X20: a rejected request, a status that is not a success and a body
    that is not JSON all show the same apology; nothing of the error is
    shown. *)
Theorem reply_on_failure (outcome : settled result) :
  (∃ e, outcome = Rejected e)
  ∨ (∃ res, outcome = Fulfilled res
            ∧ (res_ok res = false ∨ ∃ e, res_json res = Rejected e)) →
  reply outcome = apology.
Proof.
  intros [[e ->]|(res & -> & [Hok|[e He]])]; [done| |].
  - unfold reply. by rewrite Hok.
  - unfold reply. rewrite He. by destruct (res_ok res).
Qed.

End widget.

(** ** The widget in front of the route *)

Section end_to_end.
Import Route.

(** A body with a non-empty string message is never refused as a client
    error. *)
Lemma POST_valid_message_status w b m :
  req_json w = Fulfilled b →
  get b (lit "message") = Some (JStr m) → m ≠ [] →
  status (fst (POST w)) = 200%nat ∨ status (fst (POST w)) = 500%nat.
Proof.
  intros Hb Hmsg Hne. unfold POST, try_catch, POST_try. run_handler.
  rewrite Hb. destruct b; try done; cbn [destructure]; rewrite Hmsg;
    (destruct m; [done|]);
    repeat (match goal with |- context [if ?c then _ else _] => destruct c end;
            try (by right));
    (destruct (retrieve _ _ _ _ _ _ _) as [[r|e] log] eqn:E; cbn [fst];
       [by apply retrieve_returns in E as [_ ?]|by right]).
Qed.

(** X21: a request the widget sends is never refused by the route as a
    client error (the status is 200 or 500), and the search the route
    runs for it filters on the widget's trimmed input. *)
Theorem widget_request_is_valid (w : world) (endpoint : jsstring) (st : AIChat.state)
    (net : AIChat.request → settled AIChat.result) (r : AIChat.request) :
  r ∈ AIChat.requests (AIChat.sendMessage endpoint st net) →
  (status (fst (POST (with_body w (Fulfilled (AIChat.body r))))) = 200%nat
   ∨ status (fst (POST (with_body w (Fulfilled (AIChat.body r))))) = 500%nat)
  ∧ ∀ u k q, StoreRead u k q ∈ snd (POST (with_body w (Fulfilled (AIChat.body r)))) →
             q = essentialsQuery ∨ q = searchQuery (trim (AIChat.input st)).
Proof.
  unfold AIChat.sendMessage.
  destruct (negb (truthy (trim (AIChat.input st))) || AIChat.isLoading st) eqn:Hguard.
  { intros H. by apply elem_of_nil in H. }
  apply orb_false_elim in Hguard as [Hblank _].
  apply negb_false_iff, truthy_true_iff in Hblank.
  cbn. intros ->%list_elem_of_singleton. cbn [AIChat.body].
  set (b := JObj _).
  assert (get b (lit "message") = Some (JStr (trim (AIChat.input st)))) as Hmsg
    by reflexivity.
  split.
  - by apply (POST_valid_message_status _ b (trim (AIChat.input st))).
  - intros u k q Hin.
    destruct (POST_cases (with_body w (Fulfilled b)))
      as [(Hnil & _)|(b' & m' & Hb' & Hmsg' & _ & HP)].
    { rewrite Hnil in Hin. by apply elem_of_nil in Hin. }
    cbn in Hb'. injection Hb' as <-. rewrite Hmsg in Hmsg'. injection Hmsg' as <-.
    rewrite (POST_calls _ _ _ HP), retrieve_calls in Hin.
    rewrite trim_idempotent in Hin.
    apply elem_of_app in Hin as [Hin|Hin].
    + set_unfold in Hin. destruct_or?; simplify_eq; auto.
    + exfalso. repeat case_match; set_unfold in Hin; destruct_or?; simplify_eq.
Qed.

(** X22: in front of the route, the widget shows the route's [response]
    value when the status is 200 (or No response received. when that value
    is falsy) and the apology for every other status. *)
Theorem widget_reply_from_route (w : world) (r : AIChat.request) :
  (status (fst (POST (with_body w (Fulfilled (AIChat.body r))))) = 200%nat →
   ∃ v, body (fst (POST (with_body w (Fulfilled (AIChat.body r)))))
        = Some (JObj [ (lit "response", v) ])
        ∧ AIChat.reply (serve w r)
          = if AIChat.truthy_json v then v else JStr (lit "No response received."))
  ∧ (status (fst (POST (with_body w (Fulfilled (AIChat.body r))))) ≠ 200%nat →
     AIChat.reply (serve w r) = AIChat.apology).
Proof.
  unfold serve. cbv zeta.
  destruct (POST_envelope (with_body w (Fulfilled (AIChat.body r))))
    as [(Hs & v & Hb & Hv)|([Hs|Hs] & err & details & Hb)].
  - split; [|by rewrite Hs]. intros _. exists v. split; [done|].
    rewrite Hs, Hb. unfold AIChat.reply. cbn [AIChat.res_ok AIChat.res_json negb].
    change ((200 <=? 200)%nat && (200 <? 300)%nat) with true. cbv iota zeta.
    assert (AIChat.assistantText (JObj [(lit "response", v)]) = v) as ->; [|done].
    unfold AIChat.assistantText. by destruct v.
  - split; [by rewrite Hs|]. intros _. rewrite Hs. done.
  - split; [by rewrite Hs|]. intros _. rewrite Hs. done.
Qed.

Lemma slice_last_snoc {A} (l : list A) z n :
  slice_last (S n) (l ++ [z]) = slice_last n l ++ [z].
Proof.
  unfold slice_last. rewrite length_app. cbn [length].
  replace (length l + 1 - S n)%nat with (length l - n)%nat by lia.
  rewrite drop_app. f_equal.
  replace (length l - n - length l)%nat with 0%nat by lia. done.
Qed.

Lemma join_snoc sep parts z : ∃ x, join sep (parts ++ [z]) = x ++ z.
Proof.
  induction parts as [|p parts [x IH]]; [by exists []|].
  cbn [app join]. destruct (parts ++ [z]) as [|p' rest] eqn:E.
  { by destruct parts. }
  rewrite IH. exists (p ++ sep ++ x). by rewrite <- !app_assoc.
Qed.

(** X23: the history the widget sends contains the question being asked;
    when the earlier messages are strings the route renders it without
    error and its last line is [user: ] followed by the question, which
    therefore reaches the prompt twice. *)
Theorem widget_history_rendered (ms : list AIChat.Message) (q : jsstring) :
  Forall (λ m, ∃ s, AIChat.content m = JStr s) ms →
  ∃ x,
    history (Some (JArr (AIChat.Message_json <$>
                           (ms ++ [ {| AIChat.role := AIChat.user;
                                       AIChat.content := JStr q |} ]))))
    = inr (x ++ lit "user: " ++ q).
Proof.
  intros Hms.
  assert (∃ ts, AIChat.Message_json <$> ms = turn <$> ts) as [ts Hts].
  { induction Hms as [|m ms [s Hs] _ [ts IH]]; [by exists []|].
    exists ((AIChat.role_name (AIChat.role m), s) :: ts).
    rewrite !fmap_cons, IH. f_equal. unfold AIChat.Message_json. by rewrite Hs. }
  rewrite fmap_app, Hts.
  change (AIChat.Message_json <$> [_]) with (turn <$> [(lit "user", q)]).
  rewrite <- fmap_app, history_of_turns_aux, slice_last_snoc, fmap_app.
  destruct (join_snoc nl (turn_line <$> slice_last 5 ts) (turn_line (lit "user", q)))
    as [x Hx].
  exists x. f_equal. exact Hx.
Qed.

End end_to_end.

(** ** Instances *)

Lemma completion_failure_witness :
  fst (Route.POST
         (world_with (answering (FetchResponse false (lit "rate limited")
                                   (Rejected (Error (lit "not JSON")))))
            (body_of hi)))
  = NextResponse_json
      (Route.error_body (lit "Groq request failed") (Some (lit "rate limited")))
      (Some 500%nat) Route.corsHeaders.
Proof.
  eapply (completion_failure _ _
            (FetchResponse false (lit "rate limited") (Rejected (Error (lit "not JSON"))))).
  - apply (list_elem_of_lookup_2 _ 2%nat). vm_compute. reflexivity.
  - reflexivity.
  - reflexivity.
Defined.

Lemma completion_rejection_witness :
  fst (Route.POST (world_with (λ _, Rejected (Error (lit "fetch failed"))) (body_of hi)))
  = NextResponse_json
      (Route.error_body (lit "Server error") (Some (lit "fetch failed")))
      (Some 500%nat) Route.corsHeaders.
Proof.
  eapply (completion_rejection _ _ (Error (lit "fetch failed"))).
  - apply (list_elem_of_lookup_2 _ 2%nat). vm_compute. reflexivity.
  - left. reflexivity.
Defined.

Lemma answer_relayed_witness :
  fst (Route.POST
         (world_with
            (answering (FetchResponse true []
                          (Fulfilled (completion_body (JStr (lit "Manthan designs.")) []))))
            (body_of hi)))
  = NextResponse_json (JObj [ (lit "response", JStr (lit "Manthan designs.")) ])
      None Route.corsHeaders.
Proof.
  eapply (answer_relayed _ _ _ (completion_body (JStr (lit "Manthan designs.")) [])).
  - apply (list_elem_of_lookup_2 _ 2%nat). vm_compute. reflexivity.
  - reflexivity.
  - reflexivity.
  - reflexivity.
  - reflexivity.
  - discriminate.
Defined.

Lemma merge_keeps_distinct_rows_witness :
  Route.merge (Some [bar_in_project; plain_row]) (Some [null_project])
  = [bar_in_project; plain_row; null_project].
Proof.
  apply (merge_keeps_distinct_rows [bar_in_project; plain_row] [null_project]).
  - apply (bool_decide_unpack _). vm_compute. reflexivity.
  - vm_compute. lia.
Defined.

Lemma history_reads_last_six_witness :
  Route.history
    (Some (JArr ([JNull; JNum (lit "7")]
                 ++ (turn <$> replicate 6 (lit "user", lit "hello")))))
  = Route.history (Some (JArr (turn <$> replicate 6 (lit "user", lit "hello")))).
Proof.
  apply (history_reads_last_six [JNull; JNum (lit "7")]
           (turn <$> replicate 6 (lit "user", lit "hello"))).
  reflexivity.
Defined.

Lemma sendMessage_blank_or_loading_witness :
  AIChat.sendMessage (lit "/api/chat") (AIChat.State true [] (lit "   ") false)
    (λ _, Rejected (Error [])) = []
  ∧ AIChat.run (AIChat.State true [] (lit "   ") false)
      (AIChat.sendMessage (lit "/api/chat") (AIChat.State true [] (lit "   ") false)
         (λ _, Rejected (Error [])))
    = AIChat.State true [] (lit "   ") false
  ∧ AIChat.sendDisabled (AIChat.State true [] (lit "   ") false) = true.
Proof.
  apply (sendMessage_blank_or_loading (lit "/api/chat")
           (AIChat.State true [] (lit "   ") false) (λ _, Rejected (Error []))).
  left. cbn. repeat constructor.
Defined.

Lemma sendMessage_round_witness :
  ∃ r,
    AIChat.requests
      (AIChat.sendMessage (lit "/api/chat") (AIChat.State true [] (lit " hi ") false)
         (serve (plain_world (Rejected (Error []))))) = [r]
    ∧ AIChat.url r = lit "/api/chat"
    ∧ AIChat.body r
      = JObj [ (lit "message", JStr (lit "hi"));
               (lit "conversationHistory",
                JArr [ JObj [ (lit "role", JStr (lit "user"));
                              (lit "content", JStr (lit "hi")) ] ]) ]
    ∧ AIChat.run (AIChat.State true [] (lit " hi ") false)
        (AIChat.sendMessage (lit "/api/chat") (AIChat.State true [] (lit " hi ") false)
           (serve (plain_world (Rejected (Error [])))))
      = AIChat.State true
          [ {| AIChat.role := AIChat.user; AIChat.content := JStr (lit "hi") |};
            {| AIChat.role := AIChat.assistant;
               AIChat.content :=
                 AIChat.reply (serve (plain_world (Rejected (Error []))) r) |} ]
          [] false.
Proof.
  apply (sendMessage_round (lit "/api/chat") (AIChat.State true [] (lit " hi ") false)
           (serve (plain_world (Rejected (Error []))))).
  - intros H. cbn in H. apply Forall_cons in H as [_ H].
    apply Forall_cons in H as [H _]. vm_compute in H. discriminate.
  - reflexivity.
Defined.

Lemma reply_on_failure_witness :
  AIChat.reply (Fulfilled (AIChat.Result false (Fulfilled (JObj hi)))) = AIChat.apology.
Proof.
  apply (reply_on_failure (Fulfilled (AIChat.Result false (Fulfilled (JObj hi))))).
  right. eexists. split; [reflexivity|]. left. reflexivity.
Defined.

Lemma widget_request_is_valid_witness :
  ∃ r,
    r ∈ AIChat.requests
          (AIChat.sendMessage (lit "/api/chat") (AIChat.State true [] (lit " hi ") false)
             (serve (plain_world (Rejected (Error [])))))
    ∧ (status (fst (Route.POST (with_body (plain_world (Rejected (Error [])))
                                  (Fulfilled (AIChat.body r))))) = 200%nat
       ∨ status (fst (Route.POST (with_body (plain_world (Rejected (Error [])))
                                     (Fulfilled (AIChat.body r))))) = 500%nat).
Proof.
  eexists. split.
  - apply (list_elem_of_lookup_2 _ 0%nat). vm_compute. reflexivity.
  - eapply (widget_request_is_valid (plain_world (Rejected (Error [])))
              (lit "/api/chat") (AIChat.State true [] (lit " hi ") false)
              (serve (plain_world (Rejected (Error []))))).
    apply (list_elem_of_lookup_2 _ 0%nat). vm_compute. reflexivity.
Defined.

Lemma widget_history_rendered_witness :
  ∃ x,
    Route.history
      (Some (JArr (AIChat.Message_json <$>
                     ([ {| AIChat.role := AIChat.user;
                           AIChat.content := JStr (lit "hi") |};
                        {| AIChat.role := AIChat.assistant;
                           AIChat.content := JStr (lit "Hello!") |} ]
                      ++ [ {| AIChat.role := AIChat.user;
                              AIChat.content := JStr (lit "projects") |} ]))))
    = inr (x ++ lit "user: " ++ lit "projects").
Proof.
  apply (widget_history_rendered
           [ {| AIChat.role := AIChat.user; AIChat.content := JStr (lit "hi") |};
             {| AIChat.role := AIChat.assistant;
                AIChat.content := JStr (lit "Hello!") |} ] (lit "projects")).
  repeat constructor; by eexists.
Defined.
